(** * A shallow embedding of [hw_12_ph_book.py]

    The address book of the repository: validated fields ([Name], [Phone],
    [Birthday]), the contact [Record], and the [AddressBook] dictionary with
    its generator, search, edit and persistence operations.

    Conventions of the embedding.
    - A Python [str] is a sequence of Unicode code points, [list N].
    - An exception that leaves a method is an [outcome]; the state reached at
      the moment of the [raise] is kept, since Python does not roll back.
    - [Record] objects stored in the dictionary live in a heap and the
      dictionary holds references to them, so that "the same object" can be
      said.
    - [datetime.now()] is an argument ([today]) of the one method reading it. *)

From Stdlib Require Import ZArith NArith Lia String Ascii DecimalString.
From stdpp Require Import base list gmap.

Local Open Scope Z_scope.

(** ** Python strings *)

Definition str := list N.

(** A source-code literal, read as code points. *)
Definition lit (s : string) : str :=
  List.map N_of_ascii (list_ascii_of_string s).

Definition in_range (c : N) (r : N * N) : bool :=
  ((fst r <=? c) && (c <=? snd r))%N.

(** Code points whose [Numeric_Type] is [Digit] or [Decimal]
    (Unicode 14.0, the table of CPython 3.11): the characters for which
    [str.isdigit] answers [True]. *)
Definition digit_ranges : list (N * N) := [
  (48, 57); (178, 179); (185, 185); (1632, 1641); (1776, 1785);
   (1984, 1993); (2406, 2415); (2534, 2543); (2662, 2671); (2790, 2799);
   (2918, 2927); (3046, 3055); (3174, 3183); (3302, 3311); (3430, 3439);
   (3558, 3567); (3664, 3673); (3792, 3801); (3872, 3881); (4160, 4169);
   (4240, 4249); (4969, 4977); (6112, 6121); (6160, 6169); (6470, 6479);
   (6608, 6618); (6784, 6793); (6800, 6809); (6992, 7001); (7088, 7097);
   (7232, 7241); (7248, 7257); (8304, 8304); (8308, 8313); (8320, 8329);
   (9312, 9320); (9332, 9340); (9352, 9360); (9450, 9450); (9461, 9469);
   (9471, 9471); (10102, 10110); (10112, 10120); (10122, 10130);
   (42528, 42537); (43216, 43225); (43264, 43273); (43472, 43481);
   (43504, 43513); (43600, 43609); (44016, 44025); (65296, 65305);
   (66720, 66729); (68160, 68163); (68912, 68921); (69216, 69224);
   (69714, 69722); (69734, 69743); (69872, 69881); (69942, 69951);
   (70096, 70105); (70384, 70393); (70736, 70745); (70864, 70873);
   (71248, 71257); (71360, 71369); (71472, 71481); (71904, 71913);
   (72016, 72025); (72784, 72793); (73040, 73049); (73120, 73129);
   (92768, 92777); (92864, 92873); (93008, 93017); (120782, 120831);
   (123200, 123209); (123632, 123641); (125264, 125273); (127232, 127242);
   (130032, 130041)
]%N.

(** Code points of general category [Nd], the decimal digits
    ([str.isdecimal]). *)
Definition decimal_ranges : list (N * N) := [
  (48, 57); (1632, 1641); (1776, 1785); (1984, 1993); (2406, 2415);
   (2534, 2543); (2662, 2671); (2790, 2799); (2918, 2927); (3046, 3055);
   (3174, 3183); (3302, 3311); (3430, 3439); (3558, 3567); (3664, 3673);
   (3792, 3801); (3872, 3881); (4160, 4169); (4240, 4249); (6112, 6121);
   (6160, 6169); (6470, 6479); (6608, 6617); (6784, 6793); (6800, 6809);
   (6992, 7001); (7088, 7097); (7232, 7241); (7248, 7257); (42528, 42537);
   (43216, 43225); (43264, 43273); (43472, 43481); (43504, 43513);
   (43600, 43609); (44016, 44025); (65296, 65305); (66720, 66729);
   (68912, 68921); (69734, 69743); (69872, 69881); (69942, 69951);
   (70096, 70105); (70384, 70393); (70736, 70745); (70864, 70873);
   (71248, 71257); (71360, 71369); (71472, 71481); (71904, 71913);
   (72016, 72025); (72784, 72793); (73040, 73049); (73120, 73129);
   (92768, 92777); (92864, 92873); (93008, 93017); (120782, 120831);
   (123200, 123209); (123632, 123641); (125264, 125273); (130032, 130041)
]%N.

Definition char_isdigit (c : N) : bool := existsb (in_range c) digit_ranges.
Definition char_isdecimal (c : N) : bool := existsb (in_range c) decimal_ranges.

(** ['0' <= c <= '9']. *)
Definition char_is_ascii_digit (c : N) : bool := in_range c (48, 57)%N.

(** [str.isdigit()]: every character is a digit and there is at least one. *)
Definition str_isdigit (s : str) : bool :=
  match s with
  | [] => false
  | _ => forallb char_isdigit s
  end.

Definition str_eqb (a b : str) : bool := bool_decide (a = b).

(** ** Exceptions and outcomes *)

Inductive exn :=
| ValueError (msg : str)
| KeyError (key : str)
| AttributeError (attr : str)
| StopIteration
| UnpicklingError
| DanglingReference.
(* [DanglingReference] is the embedding's own: it stands for a heap reference
   to no object, which Python cannot produce. *)

Inductive outcome (A : Type) :=
| Returned (a : A)
| Raised (e : exn).
Arguments Returned {A} a.
Arguments Raised {A} e.

(** State and exception monad: the state is returned on both paths. *)
Definition M (S A : Type) : Type := S -> outcome A * S.

Definition ret {S A} (a : A) : M S A := fun s => (Returned a, s).
Definition raise {S A} (e : exn) : M S A := fun s => (Raised e, s).
Definition bind {S A B} (m : M S A) (k : A -> M S B) : M S B :=
  fun s => match m s with
           | (Returned a, s') => k a s'
           | (Raised e, s') => (Raised e, s')
           end.
Definition get {S} : M S S := fun s => (Returned s, s).
Definition put {S} (s : S) : M S unit := fun _ => (Returned tt, s).
Definition modify {S} (f : S -> S) : M S unit := fun s => (Returned tt, f s).

#[global] Instance M_ret {S} : MRet (M S) := fun A => ret.
#[global] Instance M_bind {S} : MBind (M S) := fun A B k m => bind m k.

(** [for x in xs: body x], stopping at the first exception. *)
Fixpoint for_each {S A} (xs : list A) (body : A -> M S unit) : M S unit :=
  match xs with
  | [] => ret tt
  | x :: rest => bind (body x) (fun _ => for_each rest body)
  end.

(** Pure computations that may raise. *)
Definition obind {A B} (o : outcome A) (k : A -> outcome B) : outcome B :=
  match o with
  | Returned a => k a
  | Raised e => Raised e
  end.

(** ** Calendar dates ([datetime.date])

    The proleptic Gregorian arithmetic of CPython's [datetime] module. *)

Record date := mk_date { year : Z; month : Z; day : Z }.

Definition MINYEAR : Z := 1.
Definition MAXYEAR : Z := 9999.

Definition is_leap (y : Z) : bool :=
  (y mod 4 =? 0) && (negb (y mod 100 =? 0) || (y mod 400 =? 0)).

Definition days_in_month (y m : Z) : Z :=
  match m with
  | 2 => if is_leap y then 29 else 28
  | 4 | 6 | 9 | 11 => 30
  | _ => 31
  end.

Definition days_before_year (y : Z) : Z :=
  let p := y - 1 in p * 365 + p / 4 - p / 100 + p / 400.

Definition days_before_month (y m : Z) : Z :=
  match m with
  | 1 => 0 | 2 => 31 | 3 => 59 | 4 => 90 | 5 => 120 | 6 => 151
  | 7 => 181 | 8 => 212 | 9 => 243 | 10 => 273 | 11 => 304 | _ => 334
  end + (if (2 <? m) && is_leap y then 1 else 0).

Definition toordinal (d : date) : Z :=
  days_before_year (year d) + days_before_month (year d) (month d) + day d.

(** The invariant of every [date] object. *)
Definition date_ok (d : date) : bool :=
  (MINYEAR <=? year d) && (year d <=? MAXYEAR)
  && (1 <=? month d) && (month d <=? 12)
  && (1 <=? day d) && (day d <=? days_in_month (year d) (month d)).

Definition decimal (n : N) : str :=
  lit (DecimalString.NilZero.string_of_uint (N.to_uint n)).

Definition decimalZ (z : Z) : str :=
  if z <? 0 then lit "-" ++ decimal (Z.to_N (- z)) else decimal (Z.to_N z).

(** [date(y, m, d)], also [datetime(y, m, d).date()]. *)
Definition date_new (y m d : Z) : outcome date :=
  if negb ((MINYEAR <=? y) && (y <=? MAXYEAR)) then
    Raised (ValueError (lit "year " ++ decimalZ y ++ lit " is out of range"))
  else if negb ((1 <=? m) && (m <=? 12)) then
    Raised (ValueError (lit "month must be in 1..12"))
  else if negb ((1 <=? d) && (d <=? days_in_month y m)) then
    Raised (ValueError (lit "day is out of range for month"))
  else Returned (mk_date y m d).

(** [d.replace(year=y)]. *)
Definition date_replace_year (d : date) (y : Z) : outcome date :=
  date_new y (month d) (day d).

(** [a < b]: comparison of the (year, month, day) triples. *)
Definition date_ltb (a b : date) : bool :=
  (year a <? year b)
  || ((year a =? year b)
      && ((month a <? month b)
          || ((month a =? month b) && (day a <? day b)))).

(** [(a - b).days]. *)
Definition date_sub_days (a b : date) : Z := toordinal a - toordinal b.

(** *** Formatting and parsing with ['%Y-%m-%d'] *)

Definition pad2 (z : Z) : str :=
  if z <? 10 then lit "0" ++ decimalZ z else decimalZ z.

(** [d.strftime('%Y-%m-%d')] as the C library of the platform formats it:
    glibc does not zero-fill [%Y], so the year 999 comes out as three
    characters. *)
Definition strftime_Ymd (d : date) : str :=
  decimalZ (year d) ++ lit "-" ++ pad2 (month d) ++ lit "-" ++ pad2 (day d).

(** The value of a decimal digit character, [\d] of a [str] pattern. *)
Definition digit_value (c : N) : option Z :=
  match List.find (in_range c) decimal_ranges with
  | Some r => Some (Z.of_N ((c - fst r) mod 10))
  | None => None
  end.

Definition ascii_between (lo hi c : N) : option Z :=
  if in_range c (lo, hi) then Some (Z.of_N (c - 48)) else None.

(** The alternatives of the month group, [1[0-2]|0[1-9]|[1-9]], in the
    order the regular expression tries them, each with the unread rest. *)
Definition month_alts (s : str) : list (Z * str) :=
  match s with
  | [] => []
  | a :: t =>
    (match t with
     | b :: t' =>
       (if (a =? 49)%N then
          match ascii_between 48 50 b with Some v => [(10 + v, t')] | None => [] end
        else []) ++
       (if (a =? 48)%N then
          match ascii_between 49 57 b with Some v => [(v, t')] | None => [] end
        else [])
     | [] => []
     end) ++
    match ascii_between 49 57 a with Some v => [(v, t)] | None => [] end
  end.

(** The alternatives of the day group, [3[01]|[12]\d|0[1-9]|[1-9]| [1-9]]. *)
Definition day_alts (s : str) : list (Z * str) :=
  match s with
  | [] => []
  | a :: t =>
    (match t with
     | b :: t' =>
       (if (a =? 51)%N then
          match ascii_between 48 49 b with Some v => [(30 + v, t')] | None => [] end
        else []) ++
       (match ascii_between 49 50 a, digit_value b with
        | Some u, Some v => [(10 * u + v, t')]
        | _, _ => []
        end) ++
       (if (a =? 48)%N then
          match ascii_between 49 57 b with Some v => [(v, t')] | None => [] end
        else [])
     | [] => []
     end) ++
    (match ascii_between 49 57 a with Some v => [(v, t)] | None => [] end) ++
    (match t with
     | b :: t' =>
       if (a =? 32)%N then
         match ascii_between 49 57 b with Some v => [(v, t')] | None => [] end
       else []
     | [] => []
     end)
  end.

(** [datetime.strptime(s, '%Y-%m-%d')]; [None] stands for the [ValueError]
    it raises (no match, unconverted data, or no such calendar date). *)
Definition strptime_Ymd (s : str) : option date :=
  match s with
  | y1 :: y2 :: y3 :: y4 :: 45%N :: s1 =>
    match digit_value y1, digit_value y2, digit_value y3, digit_value y4 with
    | Some a, Some b, Some c, Some d =>
      let y := 1000 * a + 100 * b + 10 * c + d in
      let after_month :=
        List.find (fun mr => match snd mr with
                             | 45%N :: s2 => negb (bool_decide (day_alts s2 = []))
                             | _ => false
                             end) (month_alts s1) in
      match after_month with
      | Some (m, 45%N :: s2) =>
        match day_alts s2 with
        | (dd, []) :: _ =>
          match date_new y m dd with
          | Returned r => Some r
          | Raised _ => None
          end
        | _ => None
        end
      | _ => None
      end
    | _, _, _, _ => None
    end
  | _ => None
  end.

(** ** Field values

    [Union[str, int, date]] of the annotations, and [None]. *)

Inductive value :=
| VNone
| VStr (s : str)
| VInt (n : Z)
| VDate (d : date).

#[global] Instance date_eq_dec : EqDecision date.
Proof. solve_decision. Defined.
#[global] Instance value_eq_dec : EqDecision value.
Proof. solve_decision. Defined.
#[global] Instance exn_eq_dec : EqDecision exn.
Proof. solve_decision. Defined.

(** [a == b] on field values. *)
Definition value_eqb (a b : value) : bool := bool_decide (a = b).

(** ** class Name(Field) *)

Module Name.
Record t := mk { _value : value }.

Definition get_value (self : t) : value := _value self.
Definition set_value (v : value) : M t unit := put (mk v).
Definition new (v : value) : t := mk v.
End Name.

(** ** class Phone(Field) *)

Module Phone.
Record t := mk { _value : value }.

Definition get_value (self : t) : value := _value self.

Definition validate_phone (phone : value) : bool :=
  match phone with
  | VStr s => str_isdigit s
  | _ => false
  end.

Definition set_value (v : value) : M t unit :=
  if negb (validate_phone v) then
    raise (ValueError (lit "Invalid phone number"))
  else put (mk v).

(** [Phone(v)]: [Field.__init__] calls [set_value] on the new object, which
    has no [_value] yet; there is no object when that raises. *)
Definition new (v : value) : outcome t :=
  match set_value v (mk VNone) with
  | (Returned _, self) => Returned self
  | (Raised e, _) => Raised e
  end.
End Phone.

(** ** class Birthday(Field) *)

Module Birthday.
Record t := mk { _value : value }.

Definition get_value (self : t) : value := _value self.

(** Only [ValueError] is caught; a value without [strftime] lets the
    [AttributeError] through. *)
Definition validate_birthday (birthday : value) : outcome bool :=
  match birthday with
  | VDate d =>
    match strptime_Ymd (strftime_Ymd d) with
    | Some _ => Returned true
    | None => Returned false
    end
  | _ => Raised (AttributeError (lit "strftime"))
  end.

Definition set_value (v : value) : M t unit :=
  match validate_birthday v with
  | Raised e => raise e
  | Returned ok =>
    if negb ok then raise (ValueError (lit "Invalid birthday"))
    else put (mk v)
  end.

Definition new (v : value) : outcome t :=
  match set_value v (mk VNone) with
  | (Returned _, self) => Returned self
  | (Raised e, _) => Raised e
  end.

Definition get_month (self : t) : outcome Z :=
  match _value self with
  | VDate d => Returned (month d)
  | _ => Raised (AttributeError (lit "month"))
  end.

Definition get_day (self : t) : outcome Z :=
  match _value self with
  | VDate d => Returned (day d)
  | _ => Raised (AttributeError (lit "day"))
  end.
End Birthday.

(** ** Values inside an f-string *)

Definition pad4 (z : Z) : str :=
  replicate (4 - length (decimalZ z)) 48%N ++ decimalZ z.

(** [str(v)], the text [f"{v}"] puts for a value; a date prints as
    [isoformat()] has it, with a year of four digits. *)
Definition str_of_value (v : value) : str :=
  match v with
  | VNone => lit "None"
  | VStr s => s
  | VInt n => decimalZ n
  | VDate d => pad4 (year d) ++ lit "-" ++ pad2 (month d) ++ lit "-" ++ pad2 (day d)
  end.

(** ** class Record *)

(** What a caller may pass where [Union[str, Phone]] is announced. *)
Inductive phone_arg :=
| AValue (v : value)
| APhone (p : Phone.t).

(** Truth value of an [Optional[str]] and of an [Optional[List[str]]]:
    [None] and the empty sequence are false. *)
Definition truthy {A} (o : option (list A)) : bool :=
  match o with
  | Some (_ :: _) => true
  | _ => false
  end.

Module Rec.
Record t := mk {
  name : Name.t;
  phones : list Phone.t;
  birthday : option Birthday.t
}.

Definition set_name (n : Name.t) (self : t) : t :=
  mk n (phones self) (birthday self).
Definition set_phones (ps : list Phone.t) (self : t) : t :=
  mk (name self) ps (birthday self).

(** Runs a method of the [name] field on the record that owns it. *)
Definition on_name {A} (m : M Name.t A) : M t A :=
  fun self => let (o, n) := m (name self) in (o, set_name n self).

Definition add_phone (phone : phone_arg) : M t unit :=
  match phone with
  | AValue (VStr s) =>
    match Phone.new (VStr s) with
    | Returned p => modify (fun self => set_phones (phones self ++ [p]) self)
    | Raised e => raise e
    end
  | APhone p => modify (fun self => set_phones (phones self ++ [p]) self)
  | AValue _ => raise (ValueError (lit "Invalid phone type"))
  end.

(** [Record(name, phone, birthday)]. A [date] object is always true, so the
    birthday is wrapped exactly when one is given. *)
Definition new (name : str) (phone : option str) (birthday : option date)
  : outcome t :=
  obind (match birthday with
         | Some d => obind (Birthday.new (VDate d)) (fun b => Returned (Some b))
         | None => Returned None
         end)
    (fun b =>
       let self := mk (Name.new (VStr name)) [] b in
       match phone with
       | Some (c :: s) =>
         match add_phone (AValue (VStr (c :: s))) self with
         | (Returned _, self') => Returned self'
         | (Raised e, _) => Raised e
         end
       | _ => Returned self
       end).

(** [edit_phone]: [set_value] on the first phone whose value equals
    [old_phone], then [break]. A [Phone] object has no [__eq__], so as
    [old_phone] it equals no stored value. *)
Definition matches_old (old_phone : phone_arg) (p : Phone.t) : bool :=
  match old_phone with
  | AValue v => value_eqb (Phone.get_value p) v
  | APhone _ => false
  end.

Fixpoint edit_phone_loop (old_phone : phone_arg) (new_phone : value)
  (ps : list Phone.t) : outcome unit * list Phone.t :=
  match ps with
  | [] => (Returned tt, [])
  | p :: rest =>
    if matches_old old_phone p then
      let (o, p') := Phone.set_value new_phone p in (o, p' :: rest)
    else
      let (o, rest') := edit_phone_loop old_phone new_phone rest in
      (o, p :: rest')
  end.

Definition edit_phone (old_phone : phone_arg) (new_phone : value) : M t unit :=
  fun self =>
    let (o, ps) := edit_phone_loop old_phone new_phone (phones self) in
    (o, set_phones ps self).

(** [days_to_birthday], with the date read from the clock as [today]. *)
Definition days_to_birthday (today : date) (self : t) : outcome (option Z) :=
  match birthday self with
  | None => Returned None
  | Some b =>
    obind (Birthday.get_month b) (fun m =>
    obind (Birthday.get_day b) (fun d =>
    obind (date_new (year today) m d) (fun next_birthday =>
    obind (if date_ltb next_birthday today
           then date_replace_year next_birthday (year today + 1)
           else Returned next_birthday) (fun next_birthday =>
    Returned (Some (date_sub_days next_birthday today))))))
  end.

(** [get_index_by_phone]: a [Phone] argument is compared by its value; the
    index of the first phone with that value. *)
Fixpoint index_from (wanted : value) (ps : list Phone.t) (inx : nat)
  : option nat :=
  match ps with
  | [] => None
  | p :: rest =>
    if value_eqb (Phone.get_value p) wanted then Some inx
    else index_from wanted rest (S inx)
  end.

Definition get_index_by_phone (phone : phone_arg) (self : t) : option nat :=
  let wanted := match phone with
                | APhone p => Phone.get_value p
                | AValue v => v
                end in
  index_from wanted (phones self) 0.

Section RemovePhone.
(** [Phone] defines no [__str__]: inside an f-string a [Phone] object prints
    as [object.__repr__] has it, a text naming the object's address. *)
Variable object_repr : Phone.t -> str.

Definition str_of_arg (phone : phone_arg) : str :=
  match phone with
  | AValue v => str_of_value v
  | APhone p => object_repr p
  end.

Definition remove_phone (phone : phone_arg) : M t str :=
  fun self =>
    match get_index_by_phone phone self with
    | None =>
      (Raised (ValueError (lit "The phone not found " ++ str_of_arg phone)),
       self)
    | Some inx =>
      (Returned (lit "The phone deleted " ++ str_of_arg phone),
       set_phones (delete inx (phones self)) self)
    end.
End RemovePhone.
End Rec.

(** ** Insertion-ordered dictionaries with [str] keys *)

Section Dict.
Context {V : Type}.

Fixpoint dict_get (k : str) (d : list (str * V)) : option V :=
  match d with
  | [] => None
  | (k', v) :: rest => if str_eqb k' k then Some v else dict_get k rest
  end.

(** [d[k] = v]: an existing key keeps its place, a new one goes last. *)
Fixpoint dict_set (k : str) (v : V) (d : list (str * V)) : list (str * V) :=
  match d with
  | [] => [(k, v)]
  | (k', v') :: rest =>
    if str_eqb k' k then (k', v) :: rest else (k', v') :: dict_set k v rest
  end.

(** [del d[k]]; [None] when the key is missing. *)
Fixpoint dict_del (k : str) (d : list (str * V)) : option (list (str * V)) :=
  match d with
  | [] => None
  | (k', v') :: rest =>
    if str_eqb k' k then Some rest
    else cons (k', v') <$> dict_del k rest
  end.

Definition dict_keys (d : list (str * V)) : list str := d.*1.
Definition dict_values (d : list (str * V)) : list V := d.*2.

(** A dictionary holds each key once. *)
Definition dict_wf (d : list (str * V)) : Prop := NoDup (dict_keys d).
End Dict.

(** ** class AddressBook(UserDict) *)

(** A reference to a [Record] object: its index in the heap. *)
Definition ref := nat.

(** The program counter of a generator made by [iterator]. *)
Inductive gen_pc :=
| GenCreated
| GenSuspended
| GenFinished.

Record generator := mk_generator { page_size : Z; pc : gen_pc }.

Module AddressBook.
(** The attributes of the book ([data], and [_index], [_keys] once an
    iteration has set them), the heap of the records it refers to, and what
    has been printed. *)
Record state := mk {
  data : list (str * ref);
  _index : nat;
  _keys : list str;
  heap : list Rec.t;
  stdout : list str
}.

Definition set_data (d : list (str * ref)) (s : state) : state :=
  mk d (_index s) (_keys s) (heap s) (stdout s).
Definition set_index (i : nat) (s : state) : state :=
  mk (data s) i (_keys s) (heap s) (stdout s).
Definition set_keys (ks : list str) (s : state) : state :=
  mk (data s) (_index s) ks (heap s) (stdout s).
Definition set_heap (h : list Rec.t) (s : state) : state :=
  mk (data s) (_index s) (_keys s) h (stdout s).
Definition print (line : str) (s : state) : state :=
  mk (data s) (_index s) (_keys s) (heap s) (stdout s ++ [line]).

(** [AddressBook()] in a process whose heap is [h]. *)
Definition empty (h : list Rec.t) : state := mk [] 0%nat [] h [].

(** Runs a method of the record behind [r], in place. *)
Definition on_record {A} (r : ref) (m : M Rec.t A) : M state A :=
  fun s =>
    match heap s !! r with
    | None => (Raised DanglingReference, s)
    | Some rec => let (o, rec') := m rec in (o, set_heap (<[r := rec']> (heap s)) s)
    end.

(** A new object: the next free reference. *)
Definition alloc (rec : Rec.t) : M state ref :=
  fun s => (Returned (length (heap s)), set_heap (heap s ++ [rec]) s).

(** The record under construction is referred to by a local variable only:
    it enters the heap when the dictionary takes it. *)
Definition add_record (name : str) (phones : option (list str))
  (birthday : option date) : M state unit :=
  match
    obind (Rec.new name None birthday) (fun record =>
      if truthy phones then
        match for_each (default [] phones)
                (fun phone => Rec.add_phone (AValue (VStr phone))) record with
        | (Returned _, record') => Returned record'
        | (Raised e, _) => Raised e
        end
      else Returned record)
  with
  | Raised e => raise e
  | Returned record =>
    r ← alloc record;
    modify (fun s => set_data (dict_set name r (data s)) s)
  end.

Definition delete_record (name : str) : M state unit :=
  fun s =>
    match dict_del name (data s) with
    | None => (Raised (KeyError name), s)
    | Some d => (Returned tt, set_data d s)
    end.

(** Returns the message when the name is missing, [None] otherwise. *)
Definition edit_record (name : str) (new_name : option str)
  (new_phones : option (list str)) : M state value :=
  s ← get;
  match dict_get name (data s) with
  | None => ret (VStr (name ++ lit " Name not found "))
  | Some record =>
    (if truthy new_name
     then on_record record
            (Rec.on_name (Name.set_value (VStr (default [] new_name))))
     else ret tt) ;;
    (if truthy new_phones
     then on_record record (modify (Rec.set_phones [])) ;;
          for_each (default [] new_phones)
            (fun phone =>
               on_record record (Rec.add_phone (AValue (VStr phone))))
     else ret tt) ;;
    ret VNone
  end.

(** The results are references to the stored records themselves. *)
Definition name_is (name : str) (s : state) (r : ref) : bool :=
  match heap s !! r with
  | Some rec => value_eqb (Name.get_value (Rec.name rec)) (VStr name)
  | None => false
  end.

Definition find_records_by_name (name : str) (s : state) : list ref :=
  List.filter (name_is name s) (dict_values (data s)).



(** *** The generator [iterator(page_size)]

    Calling [iterator] runs none of its body. *)
Definition iterator (page_size : Z) : generator :=
  mk_generator page_size GenCreated.

(** From the [while] test to the [yield]. *)
Definition iterator_loop : M state ref :=
  fun s =>
    match _keys s !! _index s with
    | Some key =>
      match dict_get key (data s) with
      | Some record => (Returned record, s)
      | None => (Raised (KeyError key), s)
      end
    | None => (Raised StopIteration, s)
    end.

(** [next(g)]: runs the body up to the next [yield]. *)
Definition next (g : generator) (s : state)
  : outcome ref * generator * state :=
  let run (s0 : state) :=
    match iterator_loop s0 with
    | (Returned record, s') =>
      (Returned record, mk_generator (page_size g) GenSuspended, s')
    | (Raised e, s') => (Raised e, mk_generator (page_size g) GenFinished, s')
    end in
  match pc g with
  | GenCreated => run (set_keys (dict_keys (data s)) (set_index 0%nat s))
  | GenSuspended => run (set_index (S (_index s)) s)
  | GenFinished => (Raised StopIteration, g, s)
  end.

(** [list(g)]: calls [next] until [StopIteration]; [None] when [fuel]
    calls were not enough. *)
Fixpoint consume (fuel : nat) (g : generator) (s : state) (acc : list ref)
  : option (outcome (list ref) * state) :=
  match fuel with
  | O => None
  | S fuel' =>
    match next g s with
    | (Returned record, g', s') => consume fuel' g' s' (acc ++ [record])
    | (Raised StopIteration, _, s') => Some (Returned acc, s')
    | (Raised e, _, s') => Some (Raised e, s')
    end
  end.

(** *** The iterator protocol, [__iter__] and [__next__]

    [__next__] reads [_index] and [_keys]: a state stands for a book on which
    [__iter__] or a generator has set them. *)
Definition __iter__ : M state unit :=
  modify (fun s => set_keys (dict_keys (data s)) (set_index 0%nat s)).

Definition __next__ : M state ref :=
  fun s =>
    match _keys s !! _index s with
    | Some key =>
      match dict_get key (data s) with
      | Some record => (Returned record, set_index (S (_index s)) s)
      | None => (Raised (KeyError key), s)
      end
    | None => (Raised StopIteration, s)
    end.

(** The calls of [__next__] of a [for] loop, until [StopIteration]. *)
Fixpoint next_until_stop (fuel : nat) (s : state) (acc : list ref)
  : option (outcome (list ref) * state) :=
  match fuel with
  | O => None
  | S fuel' =>
    match __next__ s with
    | (Returned record, s') => next_until_stop fuel' s' (acc ++ [record])
    | (Raised StopIteration, s') => Some (Returned acc, s')
    | (Raised e, s') => Some (Raised e, s')
    end
  end.

(** [[record for record in book]]. *)
Definition for_in (fuel : nat) (s : state)
  : option (outcome (list ref) * state) :=
  next_until_stop fuel (__iter__ s).2 [].

(** *** Persistence

    [pickle] is the library's: its two directions are parameters. What
    [pickle.dump(self.data, file)] encodes is the dictionary with the objects
    it refers to, an [image]; [pickle.load] builds new objects from it. The
    file system maps a file name to the bytes last written. *)
Definition image : Type := list (str * ref) * list Rec.t.

Section Persistence.
Context {blob : Type}.
Variable pickle_dumps : image -> blob.
Variable pickle_loads : blob -> option image.

(** The objects of an image, made anew after the objects of heap [h]. *)
Definition install (h : list Rec.t) (img : image) : image :=
  (prod_map id (fun r : ref => (length h + r)%nat) <$> img.1, h ++ img.2).

Definition save_to_file (filename : str) (s : state) (fs : gmap str blob)
  : gmap str blob :=
  <[filename := pickle_dumps (data s, heap s)]> fs.

Definition load_from_file (filename : str) (fs : gmap str blob)
  : M state unit :=
  fun s =>
    match fs !! filename with
    | None =>
      (Returned tt,
       print (lit "File not found. Starting with an empty address book.") s)
    | Some bytes =>
      match pickle_loads bytes with
      | None => (Raised UnpicklingError, s)
      | Some img =>
        let (d, h) := install (heap s) img in
        (Returned tt, set_heap h (set_data d s))
      end
    end.
End Persistence.

(** What the book holds: every key with the content of its record. *)
Definition entries (s : state) : list (str * option Rec.t) :=
  prod_map id (fun r : ref => heap s !! r) <$> data s.
End AddressBook.

(** Histories of a validated field: made by its constructor, then changed
    only through [set_value], whatever the calls answer. *)
Inductive Phone_reachable : Phone.t -> Prop :=
| Phone_created v p :
    Phone.new v = Returned p -> Phone_reachable p
| Phone_after_set v p o p' :
    Phone_reachable p -> Phone.set_value v p = (o, p') -> Phone_reachable p'.

Inductive Birthday_reachable : Birthday.t -> Prop :=
| Birthday_created v b :
    Birthday.new v = Returned b -> Birthday_reachable b
| Birthday_after_set v b o b' :
    Birthday_reachable b -> Birthday.set_value v b = (o, b') ->
    Birthday_reachable b'.

(** The longest prefix of strings that pass [Phone] validation. *)
Fixpoint valid_prefix (l : list str) : list str :=
  match l with
  | [] => []
  | p :: rest => if str_isdigit p then p :: valid_prefix rest else []
  end.

Definition phone_of (s : str) : Phone.t := Phone.mk (VStr s).

(** The state in which the object behind [r] has become [rec]. *)
Definition with_record (r : ref) (rec : Rec.t) (s : AddressBook.state)
  : AddressBook.state :=
  AddressBook.set_heap (<[r := rec]> (AddressBook.heap s)) s.

(** A book holding the one contact ["Bob"], with no phone and no birthday. *)
Definition book_with_bob : AddressBook.state :=
  (AddressBook.add_record (lit "Bob") None None (AddressBook.empty [])).2.

(** One call of [next] after the generator has set its index: the loop test,
    then the rest of [list(g)]. *)
Definition consume_step (fuel : nat) (page_size : Z) (s : AddressBook.state)
  (acc : list ref) : option (outcome (list ref) * AddressBook.state) :=
  match AddressBook.iterator_loop s with
  | (Returned record, s') =>
    AddressBook.consume fuel (mk_generator page_size GenSuspended) s'
      (acc ++ [record])
  | (Raised StopIteration, s') => Some (Returned acc, s')
  | (Raised e, s') => Some (Raised e, s')
  end.

(** A book of five contacts, added in the order of their names. *)
Definition book_of_five : AddressBook.state :=
  foldl (fun s name => (AddressBook.add_record name None None s).2)
    (AddressBook.empty [])
    [lit "Ann"; lit "Bob"; lit "Cy"; lit "Di"; lit "Ed"].

(** The contact [Record("Ann", birthday=date(2000, 2, 29))]. *)
Definition leap_day_contact : Rec.t :=
  Rec.mk (Name.mk (VStr (lit "Ann"))) []
    (Some (Birthday.mk (VDate (mk_date 2000 2 29)))).

(** Every phone of the record passes [Phone] validation. *)
Definition phones_valid (rec : Rec.t) : Prop :=
  Forall (fun p => Phone.validate_phone (Phone.get_value p) = true)
    (Rec.phones rec).

(** Each key is held once and refers to a record named as the key. *)
Definition keyed_by_name (s : AddressBook.state) : Prop :=
  dict_wf (AddressBook.data s)
  /\ forall k r, (k, r) ∈ AddressBook.data s ->
       exists rec, AddressBook.heap s !! r = Some rec
                   /\ Rec.name rec = Name.mk (VStr k).

(** The books made from an empty one by [add_record] and [delete_record],
    whether the calls return or raise. *)
Inductive built : AddressBook.state -> Prop :=
| built_empty : built (AddressBook.empty [])
| built_add s name phones birthday :
    built s -> built (AddressBook.add_record name phones birthday s).2
| built_delete s name :
    built s -> built (AddressBook.delete_record name s).2.



(** [next] on each generator of a list in turn, with what each call gave. *)
Fixpoint advance (gs : list generator) (s : AddressBook.state)
  : list (outcome ref) * AddressBook.state :=
  match gs with
  | [] => ([], s)
  | g :: rest =>
    let '(o, _, s') := AddressBook.next g s in
    let (os, s'') := advance rest s' in
    (o :: os, s'')
  end.

(** Decision procedures run over the finitely many years, months and days:
    the four characters [%Y] gives for a year read back as that year; a
    shorter year has at most three characters; the two characters of a day
    read back as that day, by the first alternative that matches. *)
Definition year_reads_back (y : Z) : bool :=
  match decimalZ y with
  | [a; b; c; d] =>
    match digit_value a, digit_value b, digit_value c, digit_value d with
    | Some va, Some vb, Some vc, Some vd =>
      1000 * va + 100 * vb + 10 * vc + vd =? y
    | _, _, _, _ => false
    end
  | _ => false
  end.

Definition year_is_short (y : Z) : bool :=
  match decimalZ y with
  | [_] | [_; _] | [_; _; _] => true
  | _ => false
  end.

Definition day_reads_back (d : Z) : bool :=
  match day_alts (pad2 d) with
  | (v, []) :: _ => v =? d
  | _ => false
  end.

Definition Z_range (lo len : Z) : list Z :=
  (fun i => lo + Z.of_nat i) <$> seq 0 (Z.to_nat len).

(** The records made by [Record(...)] and changed by the methods of the
    class, whether the calls return or raise; a [Phone] object handed to
    [add_phone] has the history of [Phone_reachable]. *)
Inductive Record_reachable : Rec.t -> Prop :=
| Record_created name phone birthday rec :
    Rec.new name phone birthday = Returned rec -> Record_reachable rec
| Record_after_add_value v rec o rec' :
    Record_reachable rec -> Rec.add_phone (AValue v) rec = (o, rec') ->
    Record_reachable rec'
| Record_after_add_object p rec o rec' :
    Record_reachable rec -> Phone_reachable p ->
    Rec.add_phone (APhone p) rec = (o, rec') -> Record_reachable rec'
| Record_after_edit old_phone new_phone rec o rec' :
    Record_reachable rec -> Rec.edit_phone old_phone new_phone rec = (o, rec') ->
    Record_reachable rec'
| Record_after_remove object_repr phone rec o rec' :
    Record_reachable rec -> Rec.remove_phone object_repr phone rec = (o, rec') ->
    Record_reachable rec'.

(** The text [object.__repr__] gives, up to the address it names. *)
Definition some_repr (p : Phone.t) : str := lit "<__main__.Phone object>".

(** No two keys refer to one record. *)
Definition refs_distinct (s : AddressBook.state) : Prop :=
  NoDup (dict_values (AddressBook.data s)).

(** * Properties *)

(** ** Sample runs *)

Example strftime_2024 :
  strftime_Ymd (mk_date 2024 2 29) = lit "2024-02-29".
Proof. reflexivity. Qed.

Example strptime_2024 :
  strptime_Ymd (lit "2024-02-29") = Some (mk_date 2024 2 29).
Proof. reflexivity. Qed.

Example strptime_2023 : strptime_Ymd (lit "2023-02-29") = None.
Proof. reflexivity. Qed.

Example strptime_999 : strptime_Ymd (strftime_Ymd (mk_date 999 1 1)) = None.
Proof. reflexivity. Qed.

Example toordinal_2024_03_15 : toordinal (mk_date 2024 3 15) = 738960.
Proof. reflexivity. Qed.

(** ** Digits *)

Lemma in_range_true c r :
  in_range c r = true <-> (fst r <= c /\ c <= snd r)%N.
Proof.
  unfold in_range. rewrite andb_true_iff, !N.leb_le. tauto.
Qed.

Lemma decimal_ranges_within_digit_ranges :
  forallb (fun r => existsb (fun r' => (fst r' <=? fst r)%N && (snd r <=? snd r')%N)
                      digit_ranges) decimal_ranges = true.
Proof. vm_compute. reflexivity. Qed.

Lemma char_isdecimal_isdigit c :
  char_isdecimal c = true -> char_isdigit c = true.
Proof.
  unfold char_isdecimal, char_isdigit. rewrite !existsb_exists.
  intros (r & Hr & Hc).
  pose proof decimal_ranges_within_digit_ranges as Hsub.
  rewrite forallb_forall in Hsub. specialize (Hsub r Hr).
  apply existsb_exists in Hsub as (r' & Hr' & Hle).
  exists r'. split; [assumption|].
  apply andb_true_iff in Hle as [Hlo Hhi].
  apply N.leb_le in Hlo, Hhi.
  apply in_range_true in Hc. apply in_range_true. lia.
Qed.

Lemma char_is_ascii_digit_isdecimal c :
  char_is_ascii_digit c = true -> char_isdecimal c = true.
Proof.
  unfold char_is_ascii_digit, char_isdecimal. intros H.
  change decimal_ranges with ((48, 57)%N :: List.tl decimal_ranges).
  cbn [existsb]. rewrite H. reflexivity.
Qed.

Lemma str_isdigit_true s :
  str_isdigit s = true <-> s <> [] /\ Forall (fun c => char_isdigit c = true) s.
Proof.
  destruct s as [|c s].
  - split; [discriminate | intros [H _]; congruence].
  - unfold str_isdigit. rewrite forallb_forall, Forall_forall.
    split.
    + intros H. split; [discriminate|]. intros x Hx. apply H.
      apply list_elem_of_In. exact Hx.
    + intros [_ H] x Hx. apply H. apply list_elem_of_In. exact Hx.
Qed.

Lemma forallb_false_Exists {A} (f : A -> bool) (l : list A) :
  forallb f l = false <-> Exists (fun x => f x = false) l.
Proof.
  induction l as [|x l IH]; cbn.
  - split; [discriminate | intros H; inversion H].
  - rewrite andb_false_iff, Exists_cons, IH. reflexivity.
Qed.

Lemma Forall_forallb_true {A} (f : A -> bool) (l : list A) :
  forallb f l = true -> Forall (fun x => f x = true) l.
Proof.
  rewrite forallb_forall, Forall_forall. intros H x Hx.
  apply H, list_elem_of_In, Hx.
Qed.

Lemma str_isdigit_false s :
  str_isdigit s = false <->
  s = [] \/ Exists (fun c => char_isdigit c = false) s.
Proof.
  destruct s as [|c s].
  - split; [left; reflexivity | reflexivity].
  - unfold str_isdigit. rewrite forallb_false_Exists.
    split; [right; assumption | intros [H|H]; [discriminate | assumption]].
Qed.

(** ** Phone *)

Lemma Phone_new_eq v :
  Phone.new v =
  if Phone.validate_phone v then Returned (Phone.mk v)
  else Raised (ValueError (lit "Invalid phone number")).
Proof.
  unfold Phone.new, Phone.set_value.
  destruct (Phone.validate_phone v); reflexivity.
Qed.

Lemma Phone_set_value_eq v p :
  Phone.set_value v p =
  if Phone.validate_phone v then (Returned tt, Phone.mk v)
  else (Raised (ValueError (lit "Invalid phone number")), p).
Proof.
  unfold Phone.set_value. destruct (Phone.validate_phone v); reflexivity.
Qed.

(** C2, as the code has it. A [Phone] is made from a string exactly when the
    string is not empty and [str.isdigit] accepts each of its characters,
    and then [get_value] gives the string back. Strings of decimal digits are
    among them; the empty string and a string with a character that
    [str.isdigit] rejects raise [ValueError]. *)
Theorem Phone_new_accepts_isdigit_strings (s : str) :
  (s <> [] -> Forall (fun c => char_isdecimal c = true) s ->
   exists p, Phone.new (VStr s) = Returned p /\ Phone.get_value p = VStr s)
  /\ (s <> [] -> Forall (fun c => char_isdigit c = true) s ->
      exists p, Phone.new (VStr s) = Returned p /\ Phone.get_value p = VStr s)
  /\ (s = [] \/ Exists (fun c => char_isdigit c = false) s ->
      Phone.new (VStr s) = Raised (ValueError (lit "Invalid phone number"))).
Proof.
  assert (Hdigit : s <> [] -> Forall (fun c => char_isdigit c = true) s ->
    exists p, Phone.new (VStr s) = Returned p /\ Phone.get_value p = VStr s).
  { intros Hne Hall. exists (Phone.mk (VStr s)). split; [|reflexivity].
    rewrite Phone_new_eq. cbn [Phone.validate_phone].
    now rewrite (proj2 (str_isdigit_true s) (conj Hne Hall)). }
  split; [|split].
  - intros Hne Hall. apply Hdigit; [assumption|].
    eapply Forall_impl; [exact Hall|]. apply char_isdecimal_isdigit.
  - exact Hdigit.
  - intros Hbad. rewrite Phone_new_eq. cbn [Phone.validate_phone].
    now rewrite (proj2 (str_isdigit_false s) Hbad).
Qed.

Lemma Phone_new_accepts_isdigit_strings_witness :
  (exists p, Phone.new (VStr (lit "12345")) = Returned p
             /\ Phone.get_value p = VStr (lit "12345"))
  /\ Phone.new (VStr (lit "12a")) = Raised (ValueError (lit "Invalid phone number")).
Proof.
  split.
  - apply (proj1 (Phone_new_accepts_isdigit_strings (lit "12345"))).
    + discriminate.
    + apply Forall_forallb_true. vm_compute. reflexivity.
  - apply (proj2 (proj2 (Phone_new_accepts_isdigit_strings (lit "12a")))).
    right. apply forallb_false_Exists. vm_compute. reflexivity.
Defined.

(** C2, as stated, fails: SUPERSCRIPT TWO (U+00B2) is not a decimal digit,
    yet [str.isdigit] accepts it and the [Phone] is made. *)
Lemma Phone_accepts_superscript_two :
  Exists (fun c => char_isdecimal c = false) [178%N]
  /\ Exists (fun c => char_is_ascii_digit c = false) [178%N]
  /\ Phone.new (VStr [178%N]) = Returned (Phone.mk (VStr [178%N])).
Proof.
  split; [|split].
  - apply forallb_false_Exists. vm_compute. reflexivity.
  - apply forallb_false_Exists. vm_compute. reflexivity.
  - vm_compute. reflexivity.
Qed.

(** ** Validated fields keep valid values *)

Lemma Birthday_set_value_eq v b :
  Birthday.set_value v b =
  match Birthday.validate_birthday v with
  | Returned true => (Returned tt, Birthday.mk v)
  | Returned false => (Raised (ValueError (lit "Invalid birthday")), b)
  | Raised e => (Raised e, b)
  end.
Proof.
  unfold Birthday.set_value.
  destruct (Birthday.validate_birthday v) as [[|]|e]; reflexivity.
Qed.

Lemma Phone_set_value_raised v p e p' :
  Phone.set_value v p = (Raised e, p') -> p' = p.
Proof.
  rewrite Phone_set_value_eq.
  destruct (Phone.validate_phone v); congruence.
Qed.

Lemma Birthday_set_value_raised v b e b' :
  Birthday.set_value v b = (Raised e, b') -> b' = b.
Proof.
  rewrite Birthday_set_value_eq.
  destruct (Birthday.validate_birthday v) as [[|]|e']; congruence.
Qed.

Lemma Phone_reachable_valid p :
  Phone_reachable p -> Phone.validate_phone (Phone.get_value p) = true.
Proof.
  induction 1 as [v p Hnew | v p o p' _ IH Hset].
  - rewrite Phone_new_eq in Hnew.
    destruct (Phone.validate_phone v) eqn:Hv; [|discriminate].
    injection Hnew as <-. exact Hv.
  - rewrite Phone_set_value_eq in Hset.
    destruct (Phone.validate_phone v) eqn:Hv.
    + injection Hset as _ <-. exact Hv.
    + injection Hset as _ <-. exact IH.
Qed.

Lemma Birthday_reachable_valid b :
  Birthday_reachable b ->
  Birthday.validate_birthday (Birthday.get_value b) = Returned true.
Proof.
  induction 1 as [v b Hnew | v b o b' _ IH Hset].
  - unfold Birthday.new in Hnew. rewrite Birthday_set_value_eq in Hnew.
    destruct (Birthday.validate_birthday v) as [[|]|e] eqn:Hv;
      try discriminate.
    injection Hnew as <-. exact Hv.
  - rewrite Birthday_set_value_eq in Hset.
    destruct (Birthday.validate_birthday v) as [[|]|e] eqn:Hv;
      injection Hset as _ <-; assumption.
Qed.

(** C9. On a [Phone] or [Birthday] that holds a valid value, [set_value]
    with a value its validation rejects raises [ValueError] and leaves the
    field as it was; whatever exception [set_value] raises, the field is
    untouched; and a field made by its constructor and changed through
    [set_value] only holds a valid value at every moment. *)
Theorem set_value_invalid_keeps_field :
  (forall p v,
      Phone.validate_phone (Phone.get_value p) = true ->
      Phone.validate_phone v = false ->
      Phone.set_value v p = (Raised (ValueError (lit "Invalid phone number")), p)
      /\ Phone.validate_phone (Phone.get_value p) = true)
  /\ (forall b v,
      Birthday.validate_birthday (Birthday.get_value b) = Returned true ->
      Birthday.validate_birthday v = Returned false ->
      Birthday.set_value v b = (Raised (ValueError (lit "Invalid birthday")), b)
      /\ Birthday.validate_birthday (Birthday.get_value b) = Returned true)
  /\ (forall p v e p', Phone.set_value v p = (Raised e, p') -> p' = p)
  /\ (forall b v e b', Birthday.set_value v b = (Raised e, b') -> b' = b)
  /\ (forall p, Phone_reachable p ->
                Phone.validate_phone (Phone.get_value p) = true)
  /\ (forall b, Birthday_reachable b ->
                Birthday.validate_birthday (Birthday.get_value b) = Returned true).
Proof.
  repeat split.
  - rewrite Phone_set_value_eq, H0. reflexivity.
  - assumption.
  - rewrite Birthday_set_value_eq, H0. reflexivity.
  - assumption.
  - intros p v e p'. apply Phone_set_value_raised.
  - intros b v e b'. apply Birthday_set_value_raised.
  - apply Phone_reachable_valid.
  - apply Birthday_reachable_valid.
Qed.

Lemma set_value_invalid_keeps_field_witness :
  Phone.set_value (VStr (lit "12a")) (phone_of (lit "123")) =
    (Raised (ValueError (lit "Invalid phone number")), phone_of (lit "123"))
  /\ Birthday.set_value (VDate (mk_date 999 1 1))
       (Birthday.mk (VDate (mk_date 1990 5 1))) =
     (Raised (ValueError (lit "Invalid birthday")),
      Birthday.mk (VDate (mk_date 1990 5 1)))
  /\ Phone.validate_phone (Phone.get_value (phone_of (lit "123"))) = true.
Proof.
  destruct set_value_invalid_keeps_field as (HP & HB & _ & _ & HR & _).
  split; [|split].
  - apply HP; vm_compute; reflexivity.
  - apply HB; vm_compute; reflexivity.
  - apply HR. apply (Phone_created (VStr (lit "123"))).
    vm_compute. reflexivity.
Defined.

(** ** Dictionaries *)

Lemma str_eqb_eq a b : str_eqb a b = true <-> a = b.
Proof. unfold str_eqb. apply bool_decide_eq_true. Qed.

Lemma dict_get_None {V} (k : str) (d : list (str * V)) :
  dict_get k d = None <-> k ∉ dict_keys d.
Proof.
  unfold dict_keys. induction d as [|[k' v] d IH]; cbn.
  - split; [intros _; apply not_elem_of_nil | reflexivity].
  - rewrite not_elem_of_cons. unfold str_eqb. case_bool_decide.
    + split; [discriminate | intros [Hne _]; congruence].
    + rewrite IH. split; [intros H'; split; [congruence | exact H'] | tauto].
Qed.

Lemma dict_get_Some_elem {V} (k : str) (d : list (str * V)) v :
  dict_get k d = Some v -> (k, v) ∈ d.
Proof.
  induction d as [|[k' v'] d IH]; cbn; [discriminate|].
  unfold str_eqb. case_bool_decide.
  - intros [= <-]. subst. apply list_elem_of_here.
  - intros H'. apply list_elem_of_further, IH, H'.
Qed.

Lemma dict_get_Some_value {V} (k : str) (d : list (str * V)) v :
  dict_get k d = Some v -> v ∈ dict_values d.
Proof.
  intros H. apply dict_get_Some_elem in H.
  unfold dict_values. apply list_elem_of_fmap. exists (k, v). auto.
Qed.

(** ** Records in the heap *)

Import AddressBook.

Lemma with_record_id r rec s :
  heap s !! r = Some rec -> with_record r rec s = s.
Proof.
  intros H. unfold with_record, set_heap.
  rewrite list_insert_id by exact H. destruct s; reflexivity.
Qed.

Lemma with_record_twice r a b s :
  with_record r a (with_record r b s) = with_record r a s.
Proof.
  unfold with_record, set_heap; cbn. rewrite list_insert_insert_eq.
  reflexivity.
Qed.

Lemma with_record_lookup r rec rec0 s :
  heap s !! r = Some rec0 -> heap (with_record r rec s) !! r = Some rec.
Proof.
  intros H. unfold with_record; cbn.
  apply list_lookup_insert_eq. eapply lookup_lt_Some, H.
Qed.

Lemma with_record_lookup_ne r r' rec s :
  r' <> r -> heap (with_record r rec s) !! r' = heap s !! r'.
Proof.
  intros H. unfold with_record; cbn.
  apply list_lookup_insert_ne. congruence.
Qed.

Lemma on_record_eq {A} r (m : M Rec.t A) s rec :
  heap s !! r = Some rec ->
  on_record r m s = ((m rec).1, with_record r (m rec).2 s).
Proof.
  intros H. unfold on_record. rewrite H. destruct (m rec); reflexivity.
Qed.

Lemma add_phone_str p rec :
  Rec.add_phone (AValue (VStr p)) rec =
  if str_isdigit p
  then (Returned tt, Rec.set_phones (Rec.phones rec ++ [phone_of p]) rec)
  else (Raised (ValueError (lit "Invalid phone number")), rec).
Proof.
  unfold Rec.add_phone. rewrite Phone_new_eq. cbn [Phone.validate_phone].
  destruct (str_isdigit p); reflexivity.
Qed.

Lemma set_phones_same rec : Rec.set_phones (Rec.phones rec) rec = rec.
Proof. destruct rec; reflexivity. Qed.

(** The loop [for phone in phones: record.add_phone(phone)] on a local
    record: it stops at the first string that is not a phone. *)
Lemma add_phones_local l : forall rec,
  for_each l (fun p => Rec.add_phone (AValue (VStr p))) rec =
  (if forallb str_isdigit l then Returned tt
   else Raised (ValueError (lit "Invalid phone number")),
   Rec.set_phones (Rec.phones rec ++ (phone_of <$> valid_prefix l)) rec).
Proof.
  induction l as [|p l IH]; intros rec;
    cbn [for_each forallb valid_prefix fmap list_fmap].
  - unfold ret. now rewrite app_nil_r, set_phones_same.
  - unfold bind. rewrite add_phone_str.
    destruct (str_isdigit p); cbn [andb fmap list_fmap].
    + rewrite IH. cbn. now rewrite <- app_assoc.
    + now rewrite app_nil_r, set_phones_same.
Qed.

(** The same loop on a record of the heap: every step is kept. *)
Lemma add_phones_on_record r l : forall s rec,
  heap s !! r = Some rec ->
  for_each l (fun p => on_record r (Rec.add_phone (AValue (VStr p)))) s =
  (if forallb str_isdigit l then Returned tt
   else Raised (ValueError (lit "Invalid phone number")),
   with_record r
     (Rec.set_phones (Rec.phones rec ++ (phone_of <$> valid_prefix l)) rec) s).
Proof.
  induction l as [|p l IH]; intros s rec Hrec;
    cbn [for_each forallb valid_prefix fmap list_fmap].
  - unfold ret. rewrite app_nil_r, set_phones_same.
    now rewrite with_record_id.
  - unfold bind. rewrite (on_record_eq _ _ _ _ Hrec), add_phone_str.
    destruct (str_isdigit p); cbn [andb fmap list_fmap fst snd].
    + erewrite IH by (eapply with_record_lookup, Hrec).
      cbn. now rewrite with_record_twice, <- app_assoc.
    + rewrite app_nil_r, set_phones_same. now rewrite with_record_id.
Qed.

(** ** edit_record *)

Lemma edit_record_found name new_name new_phones s r :
  dict_get name (data s) = Some r ->
  edit_record name new_name new_phones s =
  bind (if truthy new_name
        then on_record r
               (Rec.on_name (Name.set_value (VStr (default [] new_name))))
        else ret tt)
    (fun _ =>
       bind (if truthy new_phones
             then bind (on_record r (modify (Rec.set_phones [])))
                    (fun _ =>
                       for_each (default [] new_phones)
                         (fun phone =>
                            on_record r (Rec.add_phone (AValue (VStr phone)))))
             else ret tt)
         (fun _ => ret VNone)) s.
Proof.
  intros H. unfold edit_record, mbind, M_bind.
  unfold bind at 1. unfold get. rewrite H. reflexivity.
Qed.

(** C1, as the code has it. For a name that is not a key of the book,
    [edit_record] returns the message [<name> Name not found ] to its caller
    (it raises nothing) and changes nothing. *)
Theorem edit_record_missing_name_returns_message
  (s : state) (name : str) (new_name : option str)
  (new_phones : option (list str)) :
  name ∉ dict_keys (data s) ->
  edit_record name new_name new_phones s =
  (Returned (VStr (name ++ lit " Name not found ")), s).
Proof.
  intros H. apply dict_get_None in H.
  unfold edit_record, mbind, M_bind, bind, get. rewrite H. reflexivity.
Qed.

Lemma edit_record_missing_name_returns_message_witness :
  edit_record (lit "Al") (Some (lit "Alan")) (Some [lit "123"]) book_with_bob =
  (Returned (VStr (lit "Al" ++ lit " Name not found ")), book_with_bob).
Proof.
  apply edit_record_missing_name_returns_message.
  apply dict_get_None. vm_compute. reflexivity.
Defined.

(** C1, as stated, fails: on the empty book [edit_record] does not fail, it
    returns a string, where [delete_record] raises [KeyError]. *)
Lemma edit_record_missing_name_does_not_raise :
  (lit "Al" ∉ dict_keys (data (empty [])))
  /\ edit_record (lit "Al") None None (empty []) =
     (Returned (VStr (lit "Al Name not found ")), empty [])
  /\ delete_record (lit "Al") (empty []) = (Raised (KeyError (lit "Al")), empty []).
Proof.
  split; [|split].
  - apply not_elem_of_nil.
  - vm_compute. reflexivity.
  - vm_compute. reflexivity.
Qed.

Lemma find_records_by_name_elem name s r :
  r ∈ find_records_by_name name s <->
  r ∈ dict_values (data s) /\ name_is name s r = true.
Proof.
  unfold find_records_by_name.
  rewrite !list_elem_of_In. apply filter_In.
Qed.

(** C5, as the code has it. For a record stored under [name] and a new name
    that is not empty, [edit_record(name, new_name)] returns [None], leaves
    the dictionary as it was (so [name] is still the key of the same
    object), gives that object the name [new_name] and touches no other
    object; [find_records_by_name(new_name)] then returns that object. *)
Theorem edit_record_renames_without_rekeying
  (s : state) (name new_name : str) (r : ref) (rec : Rec.t) :
  dict_get name (data s) = Some r ->
  heap s !! r = Some rec ->
  new_name <> [] ->
  exists s',
    edit_record name (Some new_name) None s = (Returned VNone, s')
    /\ data s' = data s
    /\ dict_get name (data s') = Some r
    /\ heap s' !! r = Some (Rec.set_name (Name.mk (VStr new_name)) rec)
    /\ (forall r', r' <> r -> heap s' !! r' = heap s !! r')
    /\ r ∈ find_records_by_name new_name s'.
Proof.
  intros Hkey Hrec Hne.
  exists (with_record r (Rec.set_name (Name.mk (VStr new_name)) rec) s).
  assert (Hlook := with_record_lookup r
            (Rec.set_name (Name.mk (VStr new_name)) rec) rec s Hrec).
  repeat split.
  - rewrite (edit_record_found _ _ _ _ _ Hkey).
    destruct new_name as [|c new_name]; [congruence|].
    cbn [truthy default]. unfold bind.
    rewrite (on_record_eq _ _ _ _ Hrec). reflexivity.
  - exact Hkey.
  - exact Hlook.
  - intros r' Hr'. apply with_record_lookup_ne, Hr'.
  - apply find_records_by_name_elem. split.
    + cbn. eapply dict_get_Some_value, Hkey.
    + unfold name_is. rewrite Hlook. cbn.
      unfold value_eqb. apply bool_decide_eq_true. reflexivity.
Qed.

Lemma edit_record_renames_without_rekeying_witness :
  exists s',
    edit_record (lit "Bob") (Some (lit "Bobby")) None book_with_bob =
      (Returned VNone, s')
    /\ data s' = data book_with_bob
    /\ dict_get (lit "Bob") (data s') = Some 0%nat
    /\ heap s' !! 0%nat =
       Some (Rec.mk (Name.mk (VStr (lit "Bobby"))) [] None)
    /\ (forall r', r' <> 0%nat -> heap s' !! r' = heap book_with_bob !! r')
    /\ 0%nat ∈ find_records_by_name (lit "Bobby") s'.
Proof.
  apply (edit_record_renames_without_rekeying book_with_bob (lit "Bob")
           (lit "Bobby") 0%nat (Rec.mk (Name.mk (VStr (lit "Bob"))) [] None)).
  - vm_compute. reflexivity.
  - vm_compute. reflexivity.
  - discriminate.
Defined.

(** C5, as stated, fails for the empty new name: it counts as "not given",
    the record keeps its name and a search for the new name finds nothing. *)
Lemma edit_record_empty_new_name_keeps_name :
  dict_get (lit "Bob") (data book_with_bob) = Some 0%nat
  /\ edit_record (lit "Bob") (Some []) None book_with_bob =
     (Returned VNone, book_with_bob)
  /\ (Rec.name <$> (heap book_with_bob !! 0%nat)) =
     Some (Name.mk (VStr (lit "Bob")))
  /\ find_records_by_name [] book_with_bob = [].
Proof.
  repeat split; vm_compute; reflexivity.
Qed.

(** C6. When a string of [new_phones] is not a valid phone,
    [edit_record] on an existing record raises [ValueError] after the old
    phones are gone: the record is left holding the phones made from the
    valid strings that come before the first invalid one, and nothing else
    of the dictionary changes. *)
Theorem edit_record_invalid_phone_discards_old_phones
  (s : state) (name : str) (new_name : option str) (new_phones : list str)
  (r : ref) (rec : Rec.t) :
  dict_get name (data s) = Some r ->
  heap s !! r = Some rec ->
  Exists (fun p => Phone.validate_phone (VStr p) = false) new_phones ->
  exists s' rec',
    edit_record name new_name (Some new_phones) s =
      (Raised (ValueError (lit "Invalid phone number")), s')
    /\ data s' = data s
    /\ heap s' !! r = Some rec'
    /\ Rec.phones rec' = phone_of <$> valid_prefix new_phones
    /\ Rec.birthday rec' = Rec.birthday rec
    /\ (forall r', r' <> r -> heap s' !! r' = heap s !! r').
Proof.
  intros Hkey Hrec Hbad.
  apply forallb_false_Exists in Hbad.
  change (forallb str_isdigit new_phones = false) in Hbad.
  set (rec1 := if truthy new_name
               then Rec.set_name (Name.mk (VStr (default [] new_name))) rec
               else rec).
  set (rec2 := Rec.set_phones (phone_of <$> valid_prefix new_phones) rec1).
  exists (with_record r rec2 s), rec2.
  assert (Hne : truthy (Some new_phones) = true).
  { destruct new_phones; [discriminate | reflexivity]. }
  repeat split.
  - rewrite (edit_record_found _ _ _ _ _ Hkey), Hne.
    cbn [default]. unfold bind at 1.
    assert (H1 : (if truthy new_name
                  then on_record r
                         (Rec.on_name
                            (Name.set_value (VStr (default [] new_name))))
                  else ret tt) s = (Returned tt, with_record r rec1 s)).
    { subst rec1. destruct (truthy new_name).
      - rewrite (on_record_eq _ _ _ _ Hrec). reflexivity.
      - unfold ret. now rewrite with_record_id. }
    rewrite H1. unfold bind at 1. unfold bind at 1.
    assert (Hrec1 := with_record_lookup r rec1 rec s Hrec).
    rewrite (on_record_eq _ _ _ _ Hrec1). cbn [fst snd modify].
    rewrite with_record_twice.
    assert (Hrec1' := with_record_lookup r (Rec.set_phones [] rec1) rec s Hrec).
    rewrite (add_phones_on_record _ _ _ _ Hrec1'). unfold id.
    rewrite Hbad, with_record_twice. subst rec2.
    clear. generalize rec1. intros [n ps b]. reflexivity.
  - eapply with_record_lookup, Hrec.
  - subst rec2 rec1. destruct (truthy new_name); reflexivity.
  - intros r' Hr'. apply with_record_lookup_ne, Hr'.
Qed.

Lemma edit_record_invalid_phone_discards_old_phones_witness :
  exists s' rec',
    edit_record (lit "Ann") None (Some [lit "5"; lit "6"; lit "x"; lit "7"])
      (add_record (lit "Ann") (Some [lit "12345"]) None (empty [])).2 =
      (Raised (ValueError (lit "Invalid phone number")), s')
    /\ data s' = [(lit "Ann", 0%nat)]
    /\ heap s' !! 0%nat = Some rec'
    /\ Rec.phones rec' = [phone_of (lit "5"); phone_of (lit "6")]
    /\ Rec.birthday rec' = None
    /\ (forall r', r' <> 0%nat -> heap s' !! r' =
          heap (add_record (lit "Ann") (Some [lit "12345"]) None (empty [])).2 !! r').
Proof.
  apply (edit_record_invalid_phone_discards_old_phones
           (add_record (lit "Ann") (Some [lit "12345"]) None (empty [])).2
           (lit "Ann") None [lit "5"; lit "6"; lit "x"; lit "7"] 0%nat
           (Rec.mk (Name.mk (VStr (lit "Ann"))) [phone_of (lit "12345")] None)).
  - vm_compute. reflexivity.
  - vm_compute. reflexivity.
  - apply forallb_false_Exists. vm_compute. reflexivity.
Defined.

(** ** add_record *)

Lemma Rec_new_no_phone name birthday :
  Rec.new name None birthday =
  match birthday with
  | None => Returned (Rec.mk (Name.mk (VStr name)) [] None)
  | Some d =>
    match strptime_Ymd (strftime_Ymd d) with
    | Some _ =>
      Returned (Rec.mk (Name.mk (VStr name)) [] (Some (Birthday.mk (VDate d))))
    | None => Raised (ValueError (lit "Invalid birthday"))
    end
  end.
Proof.
  unfold Rec.new. destruct birthday as [d|]; [|reflexivity].
  unfold Birthday.new. rewrite Birthday_set_value_eq.
  cbn [Birthday.validate_birthday].
  destruct (strptime_Ymd (strftime_Ymd d)); reflexivity.
Qed.

(** C10. When a string of [phones] is not a valid phone, [add_record]
    raises [ValueError] before anything reaches the dictionary: the state of
    the book is the one before the call, an entry already under [name]
    included. *)
Theorem add_record_invalid_phone_inserts_nothing
  (s : state) (name : str) (phones : list str) (birthday : option date) :
  Exists (fun p => Phone.validate_phone (VStr p) = false) phones ->
  exists msg,
    add_record name (Some phones) birthday s = (Raised (ValueError msg), s)
    /\ (msg = lit "Invalid phone number" \/ msg = lit "Invalid birthday")
    /\ data (add_record name (Some phones) birthday s).2 = data s
    /\ dict_get name (data (add_record name (Some phones) birthday s).2) =
       dict_get name (data s).
Proof.
  intros Hbad. apply forallb_false_Exists in Hbad.
  change (forallb str_isdigit phones = false) in Hbad.
  assert (Hne : truthy (Some phones) = true).
  { destruct phones; [discriminate | reflexivity]. }
  assert (H : exists msg,
    add_record name (Some phones) birthday s = (Raised (ValueError msg), s)
    /\ (msg = lit "Invalid phone number" \/ msg = lit "Invalid birthday")).
  { unfold add_record. rewrite Rec_new_no_phone, Hne.
    destruct birthday as [d|]; [destruct (strptime_Ymd (strftime_Ymd d))|];
      cbn [obind default from_option]; unfold id;
      rewrite ?add_phones_local, ?Hbad; eauto. }
  destruct H as (msg & Heq & Hmsg). exists msg. rewrite Heq. auto.
Qed.

Lemma add_record_invalid_phone_inserts_nothing_witness :
  exists msg,
    add_record (lit "Bob") (Some [lit "5"; lit "x"]) None book_with_bob =
      (Raised (ValueError msg), book_with_bob)
    /\ (msg = lit "Invalid phone number" \/ msg = lit "Invalid birthday")
    /\ data (add_record (lit "Bob") (Some [lit "5"; lit "x"]) None
               book_with_bob).2 = data book_with_bob
    /\ dict_get (lit "Bob")
         (data (add_record (lit "Bob") (Some [lit "5"; lit "x"]) None
                  book_with_bob).2) =
       dict_get (lit "Bob") (data book_with_bob).
Proof.
  apply (add_record_invalid_phone_inserts_nothing book_with_bob (lit "Bob")
           [lit "5"; lit "x"] None).
  apply forallb_false_Exists. vm_compute. reflexivity.
Defined.

(** ** The generator *)

Lemma dict_get_lookup {V} (d : list (str * V)) i k v :
  dict_wf d -> d !! i = Some (k, v) -> dict_get k d = Some v.
Proof.
  unfold dict_wf, dict_keys. revert i.
  induction d as [|[k' v'] d IH]; intros i Hwf Hi; [discriminate|].
  cbn in Hwf. apply NoDup_cons in Hwf as [Hfresh Hwf].
  cbn [dict_get]. unfold str_eqb. destruct i as [|i]; cbn in Hi.
  - injection Hi as -> ->. now rewrite bool_decide_eq_true_2.
  - rewrite bool_decide_eq_false_2; [eapply IH; eassumption|].
    intros ->. apply Hfresh. apply list_elem_of_fmap.
    exists (k, v). split; [reflexivity|].
    eapply list_elem_of_lookup_2, Hi.
Qed.

Lemma iterator_loop_eq s :
  _keys s = dict_keys (data s) -> dict_wf (data s) ->
  iterator_loop s =
  match data s !! _index s with
  | Some (_, record) => (Returned record, s)
  | None => (Raised StopIteration, s)
  end.
Proof.
  intros Hkeys Hwf. unfold iterator_loop. rewrite Hkeys.
  unfold dict_keys. rewrite list_lookup_fmap.
  destruct (data s !! _index s) as [[k v]|] eqn:Hi; cbn; [|reflexivity].
  now rewrite (dict_get_lookup _ _ _ _ Hwf Hi).
Qed.

Lemma consume_suspended fuel ps s acc :
  consume (S fuel) (mk_generator ps GenSuspended) s acc =
  consume_step fuel ps (set_index (S (_index s)) s) acc.
Proof.
  cbn [consume]. unfold next, consume_step. cbn [pc page_size].
  destruct (iterator_loop _) as [[r|[]] s']; reflexivity.
Qed.

Lemma consume_created fuel ps s acc :
  consume (S fuel) (iterator ps) s acc =
  consume_step fuel ps (set_keys (dict_keys (data s)) (set_index 0%nat s)) acc.
Proof.
  cbn [consume]. unfold next, consume_step, iterator. cbn [pc page_size].
  destruct (iterator_loop _) as [[r|[]] s']; reflexivity.
Qed.

Lemma set_index_same s : set_index (_index s) s = s.
Proof. destruct s; reflexivity. Qed.

(** With [k] records left, [k] more calls yield them and one more ends. *)
Lemma consume_step_enough ps k : forall s acc fuel,
  _keys s = dict_keys (data s) -> dict_wf (data s) ->
  (_index s + k = length (data s))%nat -> (k <= fuel)%nat ->
  consume_step fuel ps s acc =
  Some (Returned (acc ++ drop (_index s) (dict_values (data s))),
        set_index (length (data s)) s).
Proof.
  induction k as [|k IH]; intros s acc fuel Hkeys Hwf Hlen Hfuel;
    unfold consume_step; rewrite (iterator_loop_eq _ Hkeys Hwf).
  - rewrite Nat.add_0_r in Hlen.
    rewrite lookup_ge_None_2 by lia.
    rewrite drop_ge by (unfold dict_values; rewrite length_fmap; lia).
    now rewrite app_nil_r, <- Hlen, set_index_same.
  - destruct (lookup_lt_is_Some_2 (data s) (_index s)) as [[key v] Hi];
      [lia|].
    rewrite Hi. destruct fuel as [|fuel]; [lia|].
    rewrite consume_suspended, IH; cbn [data _keys _index set_index];
      try assumption; try lia.
    assert (Hv : dict_values (data s) !! _index s = Some v).
    { unfold dict_values. now rewrite list_lookup_fmap, Hi. }
    now rewrite (drop_S _ _ _ Hv), <- app_assoc.
Qed.

(** With [k] records left, [k] calls or fewer do not reach the end. *)
Lemma consume_step_short ps k : forall s acc fuel,
  _keys s = dict_keys (data s) -> dict_wf (data s) ->
  (_index s + k = length (data s))%nat -> (fuel < k)%nat ->
  consume_step fuel ps s acc = None.
Proof.
  induction k as [|k IH]; intros s acc fuel Hkeys Hwf Hlen Hfuel; [lia|].
  unfold consume_step. rewrite (iterator_loop_eq _ Hkeys Hwf).
  destruct (lookup_lt_is_Some_2 (data s) (_index s)) as [[key v] Hi]; [lia|].
  rewrite Hi. destruct fuel as [|fuel]; [reflexivity|].
  rewrite consume_suspended.
  apply IH; cbn [data _keys _index set_index]; try assumption; lia.
Qed.

(** C7. For a book and any [page_size], consuming [iterator(page_size)]
    takes one [next] per record and one more that ends it, and yields the
    records of the dictionary in its order; fewer calls do not end it; the
    book's records are untouched; a second generator, made afterwards with
    any page size, yields the same records from the first one on. *)
Theorem iterator_yields_records_in_order
  (s : state) (page_size page_size' : Z) :
  dict_wf (data s) ->
  let s' := set_index (length (data s)) (set_keys (dict_keys (data s)) s) in
  (forall fuel, (length (data s) < fuel)%nat ->
     consume fuel (iterator page_size) s [] =
     Some (Returned (dict_values (data s)), s'))
  /\ (forall fuel, (fuel <= length (data s))%nat ->
        consume fuel (iterator page_size) s [] = None)
  /\ (forall fuel, (length (data s) < fuel)%nat ->
        consume fuel (iterator page_size') s' [] =
        Some (Returned (dict_values (data s)), s'))
  /\ data s' = data s /\ heap s' = heap s.
Proof.
  intros Hwf s'.
  assert (Hrun : forall (s0 : state) ps fuel,
    data s0 = data s -> (length (data s) < fuel)%nat ->
    consume fuel (iterator ps) s0 [] =
    Some (Returned (dict_values (data s)),
          set_index (length (data s)) (set_keys (dict_keys (data s)) s0))).
  { intros s0 ps [|fuel] Hd Hfuel; [lia|].
    rewrite consume_created, Hd.
    rewrite (consume_step_enough ps (length (data s)));
      cbn [data _keys _index set_index set_keys]; rewrite ?Hd;
      try assumption; try reflexivity; try lia. }
  repeat split.
  - intros fuel Hfuel. apply Hrun; [reflexivity | assumption].
  - intros [|fuel] Hfuel; [reflexivity|].
    rewrite consume_created.
    apply (consume_step_short page_size (length (data s)));
      cbn [data _keys _index set_index set_keys];
      try assumption; try reflexivity; lia.
  - intros fuel Hfuel. rewrite (Hrun s' page_size' fuel); [|reflexivity|assumption].
    reflexivity.
Qed.

Lemma book_of_five_wf : dict_wf (data book_of_five).
Proof.
  unfold dict_wf. apply (bool_decide_unpack _). vm_compute. exact I.
Qed.

Lemma iterator_yields_records_in_order_witness :
  consume 6 (iterator 2) book_of_five [] =
    Some (Returned [0; 1; 2; 3; 4]%nat,
          set_index 5 (set_keys (dict_keys (data book_of_five)) book_of_five))
  /\ consume 5 (iterator 2) book_of_five [] = None
  /\ consume 6 (iterator 3)
       (set_index 5 (set_keys (dict_keys (data book_of_five)) book_of_five)) [] =
     Some (Returned [0; 1; 2; 3; 4]%nat,
           set_index 5 (set_keys (dict_keys (data book_of_five)) book_of_five)).
Proof.
  destruct (iterator_yields_records_in_order book_of_five 2 3 book_of_five_wf)
    as (H1 & H2 & H3 & _).
  split; [|split].
  - apply (H1 6%nat). vm_compute. lia.
  - apply (H2 5%nat). vm_compute. lia.
  - apply (H3 6%nat). vm_compute. lia.
Defined.

(** ** Persistence *)

Lemma entries_install (h0 : list Rec.t) (s : state) :
  prod_map id (fun r : ref => (install h0 (data s, heap s)).2 !! r)
    <$> (install h0 (data s, heap s)).1 = entries s.
Proof.
  unfold install, entries. cbn [fst snd].
  rewrite <- list_fmap_compose. apply list_fmap_ext.
  intros i [k r] _. cbn.
  rewrite lookup_app_r by lia. f_equal. f_equal. lia.
Qed.

(** C8. Provided [pickle.load] gives back what [pickle.dump] was given,
    saving a book to a file and loading that file into a new, empty book
    gives a book with the same keys in the same order, each with a record of
    the same content: name, phones in their order, birthday or none. *)
Theorem save_then_load_restores_entries {blob : Type}
  (pickle_dumps : image -> blob) (pickle_loads : blob -> option image)
  (s : state) (filename : str) (fs : gmap str blob) (h0 : list Rec.t) :
  (forall img, pickle_loads (pickle_dumps img) = Some img) ->
  exists s',
    load_from_file pickle_loads filename
      (save_to_file pickle_dumps filename s fs) (empty h0) = (Returned tt, s')
    /\ entries s' = entries s
    /\ dict_keys (data s') = dict_keys (data s)
    /\ stdout s' = [].
Proof.
  intros Hpickle.
  unfold load_from_file, save_to_file. rewrite lookup_insert_eq, Hpickle.
  destruct (install (heap (empty h0)) (data s, heap s)) as [d h] eqn:Hinst.
  eexists. split; [reflexivity|].
  cbn [empty heap] in Hinst.
  pose proof (entries_install h0 s) as He. rewrite Hinst in He.
  repeat split.
  - exact He.
  - apply (f_equal fst) in Hinst. cbn in Hinst. subst d.
    cbn. unfold dict_keys. rewrite <- list_fmap_compose.
    apply list_fmap_ext. now intros i [k r] _.
Qed.

Lemma save_then_load_restores_entries_witness :
  exists s',
    load_from_file (blob := image) Some (lit "book.bin")
      (save_to_file id (lit "book.bin") book_of_five ∅) (empty []) =
      (Returned tt, s')
    /\ entries s' = entries book_of_five
    /\ dict_keys (data s') = dict_keys (data book_of_five)
    /\ stdout s' = [].
Proof.
  apply (save_then_load_restores_entries (blob := image) id Some
           book_of_five (lit "book.bin") ∅ []).
  intros img. reflexivity.
Defined.

(** ** days_to_birthday *)

Lemma is_leap_mod4 y : is_leap y = true -> y mod 4 = 0.
Proof.
  unfold is_leap. rewrite andb_true_iff, Z.eqb_eq. tauto.
Qed.

Lemma is_leap_succ y : is_leap y = true -> is_leap (y + 1) = false.
Proof.
  intros H. apply is_leap_mod4 in H. unfold is_leap.
  apply andb_false_iff. left. apply Z.eqb_neq.
  Z.div_mod_to_equations. lia.
Qed.

Lemma date_new_leap_day y :
  MINYEAR <= y <= MAXYEAR ->
  date_new y 2 29 =
  if is_leap y then Returned (mk_date y 2 29)
  else Raised (ValueError (lit "day is out of range for month")).
Proof.
  intros [Hlo Hhi]. unfold date_new.
  rewrite (proj2 (Z.leb_le _ _) Hlo), (proj2 (Z.leb_le _ _) Hhi).
  cbn [andb negb days_in_month].
  destruct (is_leap y); reflexivity.
Qed.

Lemma date_ok_year d : date_ok d = true -> MINYEAR <= year d <= MAXYEAR.
Proof.
  unfold date_ok. rewrite !andb_true_iff, !Z.leb_le. tauto.
Qed.

(** C4. A record whose birthday is a 29th of February makes
    [days_to_birthday] raise [ValueError] where an integer is due: when the
    current year is not a leap year, building [next_birthday] fails; when
    the current year is a leap year and the day has passed, moving it to
    the next year, which is no leap year, fails. *)
Theorem days_to_birthday_leap_day_raises (today b : date) (rec : Rec.t) :
  Rec.birthday rec = Some (Birthday.mk (VDate b)) ->
  month b = 2 -> day b = 29 ->
  date_ok today = true ->
  is_leap (year today) = false
  \/ (date_ltb (mk_date (year today) 2 29) today = true
      /\ is_leap (year today + 1) = false) ->
  Rec.days_to_birthday today rec =
  Raised (ValueError (lit "day is out of range for month")).
Proof.
  intros Hb Hm Hd Hok Hcase. apply date_ok_year in Hok as Hy.
  unfold Rec.days_to_birthday. rewrite Hb.
  cbn [Birthday.get_month Birthday.get_day Birthday._value obind].
  rewrite Hm, Hd, (date_new_leap_day _ Hy).
  destruct (is_leap (year today)) eqn:Hleap; [|reflexivity].
  destruct Hcase as [Hno | [Hpast Hnext]]; [discriminate|].
  cbn [obind]. rewrite Hpast.
  unfold date_replace_year. cbn [month day].
  assert (Hy' : MINYEAR <= year today + 1 <= MAXYEAR).
  { unfold MINYEAR, MAXYEAR in *. apply is_leap_mod4 in Hleap.
    split; [lia|]. Z.div_mod_to_equations. lia. }
  rewrite (date_new_leap_day _ Hy'), Hnext. reflexivity.
Qed.

Lemma days_to_birthday_leap_day_raises_witness :
  Rec.new (lit "Ann") None (Some (mk_date 2000 2 29)) =
    Returned leap_day_contact
  /\ Rec.days_to_birthday (mk_date 2023 3 1) leap_day_contact =
     Raised (ValueError (lit "day is out of range for month"))
  /\ Rec.days_to_birthday (mk_date 2024 3 1) leap_day_contact =
     Raised (ValueError (lit "day is out of range for month")).
Proof.
  split; [vm_compute; reflexivity|]. split.
  - apply (days_to_birthday_leap_day_raises (mk_date 2023 3 1)
             (mk_date 2000 2 29)); try reflexivity.
    left. reflexivity.
  - apply (days_to_birthday_leap_day_raises (mk_date 2024 3 1)
             (mk_date 2000 2 29)); try reflexivity.
    right. split; reflexivity.
Defined.

(** C3 at the input where the code departs from it: for the contact born
    on 2000-02-29, asked on 2023-01-15, [days_to_birthday] raises
    [ValueError] and returns no number of days. *)
Lemma days_to_birthday_leap_day_in_2023 :
  Rec.new (lit "Ann") None (Some (mk_date 2000 2 29)) =
    Returned leap_day_contact
  /\ date_ok (mk_date 2023 1 15) = true
  /\ Rec.days_to_birthday (mk_date 2023 1 15) leap_day_contact =
     Raised (ValueError (lit "day is out of range for month")).
Proof.
  repeat split; vm_compute; reflexivity.
Qed.

(** ** days_to_birthday away from the 29th of February *)

Lemma month_cases m :
  1 <= m <= 12 ->
  m = 1 \/ m = 2 \/ m = 3 \/ m = 4 \/ m = 5 \/ m = 6 \/ m = 7 \/ m = 8
  \/ m = 9 \/ m = 10 \/ m = 11 \/ m = 12.
Proof. lia. Qed.

Ltac each_month H :=
  apply month_cases in H;
  repeat (destruct H as [H|H]); subst.

Lemma date_ok_fields d :
  date_ok d = true <->
  MINYEAR <= year d <= MAXYEAR /\ 1 <= month d <= 12
  /\ 1 <= day d <= days_in_month (year d) (month d).
Proof.
  unfold date_ok. rewrite !andb_true_iff, !Z.leb_le. tauto.
Qed.

Lemma date_new_ok y m d :
  date_ok (mk_date y m d) = true -> date_new y m d = Returned (mk_date y m d).
Proof.
  intros H. apply date_ok_fields in H. cbn [year month day] in H.
  destruct H as ((H1 & H2) & (H3 & H4) & H5 & H6).
  unfold date_new.
  rewrite (proj2 (Z.leb_le _ _) H1), (proj2 (Z.leb_le _ _) H2),
    (proj2 (Z.leb_le _ _) H3), (proj2 (Z.leb_le _ _) H4),
    (proj2 (Z.leb_le _ _) H5), (proj2 (Z.leb_le _ _) H6).
  reflexivity.
Qed.

(** A month and day other than the 29th of February exist in every year. *)
Lemma date_ok_other_year b y :
  date_ok b = true -> ~ (month b = 2 /\ day b = 29) ->
  MINYEAR <= y <= MAXYEAR ->
  date_ok (mk_date y (month b) (day b)) = true.
Proof.
  intros Hb Hnot Hy. apply date_ok_fields in Hb.
  destruct Hb as (_ & Hm & Hd). apply date_ok_fields.
  cbn [year month day]. repeat split; try lia.
  destruct b as [yb m d]. cbn [year month day] in *.
  unfold days_in_month in *.
  each_month Hm; destruct (is_leap yb), (is_leap y); cbn in *; lia.
Qed.

Lemma days_before_year_succ y :
  days_before_year (y + 1) =
  days_before_year y + 365 + (if is_leap y then 1 else 0).
Proof.
  unfold days_before_year, is_leap.
  replace (y + 1 - 1) with y by lia.
  destruct (y mod 4 =? 0) eqn:H4; destruct (y mod 100 =? 0) eqn:H100;
    destruct (y mod 400 =? 0) eqn:H400; cbn [andb orb negb];
    rewrite ?Z.eqb_eq, ?Z.eqb_neq in *;
    Z.div_mod_to_equations; lia.
Qed.

(** Within a year, later dates have larger ordinals. *)
Lemma toordinal_same_year y m1 d1 m2 d2 :
  date_ok (mk_date y m1 d1) = true -> date_ok (mk_date y m2 d2) = true ->
  date_ltb (mk_date y m1 d1) (mk_date y m2 d2) = false ->
  toordinal (mk_date y m2 d2) <= toordinal (mk_date y m1 d1).
Proof.
  intros H1 H2 Hlt. apply date_ok_fields in H1, H2.
  cbn [year month day] in *.
  destruct H1 as (_ & Hm1 & Hd1), H2 as (_ & Hm2 & Hd2).
  unfold date_ltb in Hlt. cbn [year month day] in Hlt.
  rewrite Z.ltb_irrefl, Z.eqb_refl in Hlt. cbn [orb andb] in Hlt.
  apply orb_false_iff in Hlt as [Hm Hd]. apply Z.ltb_ge in Hm.
  apply andb_false_iff in Hd. rewrite Z.eqb_neq, Z.ltb_ge in Hd.
  unfold toordinal. cbn [year month day].
  unfold days_before_month, days_in_month in *.
  each_month Hm1; each_month Hm2; try lia;
    destruct (is_leap y); cbn in *; lia.
Qed.

(** Every date of a year comes before every date of the next. *)
Lemma toordinal_next_year y m1 d1 m2 d2 :
  date_ok (mk_date (y + 1) m1 d1) = true -> date_ok (mk_date y m2 d2) = true ->
  toordinal (mk_date y m2 d2) < toordinal (mk_date (y + 1) m1 d1).
Proof.
  intros H1 H2. apply date_ok_fields in H1, H2.
  cbn [year month day] in *.
  destruct H1 as (_ & Hm1 & Hd1), H2 as (_ & Hm2 & Hd2).
  unfold toordinal. cbn [year month day]. rewrite days_before_year_succ.
  assert (0 <= days_before_month (y + 1) m1).
  { unfold days_before_month.
    each_month Hm1; destruct (is_leap (y + 1)); cbn; lia. }
  enough (days_before_month y m2 + d2 <= 365 + (if is_leap y then 1 else 0))
    by lia.
  clear Hd1. unfold days_before_month, days_in_month in *.
  each_month Hm2; destruct (is_leap y); cbn in *; lia.
Qed.

(** The first part of C3: [days_to_birthday] returns [None] exactly for a
    record without a birthday. *)
Lemma days_to_birthday_none today rec :
  Rec.days_to_birthday today rec = Returned None <-> Rec.birthday rec = None.
Proof.
  unfold Rec.days_to_birthday. split.
  - destruct (Rec.birthday rec) as [b|]; [|reflexivity].
    destruct (Birthday.get_month b); [|discriminate].
    destruct (Birthday.get_day b); [|discriminate].
    cbn [obind]. destruct (date_new _ _ _) as [nb|]; [|discriminate].
    cbn [obind]. destruct (date_ltb nb today); [|discriminate].
    destruct (date_replace_year _ _); discriminate.
  - intros ->. reflexivity.
Qed.

(** The part of C3 the code keeps. For a record whose birthday is any day
    but a 29th of February, and before the last year of the calendar,
    [days_to_birthday] returns the number of days from [today] to the next
    date with the birthday's month and day: that date is in the current
    year unless it is already past, and then in the next one; the number is
    never negative, and it is 0 on the birthday itself. *)
Theorem days_to_birthday_counts_days (today b : date) (rec : Rec.t) :
  Rec.birthday rec = Some (Birthday.mk (VDate b)) ->
  date_ok today = true -> date_ok b = true ->
  ~ (month b = 2 /\ day b = 29) ->
  year today < MAXYEAR ->
  exists next,
    Rec.days_to_birthday today rec =
      Returned (Some (toordinal next - toordinal today))
    /\ month next = month b /\ day next = day b
    /\ year next =
       (if date_ltb (mk_date (year today) (month b) (day b)) today
        then year today + 1 else year today)
    /\ date_ok next = true
    /\ date_ltb next today = false
    /\ 0 <= toordinal next - toordinal today
    /\ (month today = month b -> day today = day b ->
        toordinal next - toordinal today = 0).
Proof.
  intros Hb Htoday Hbok Hnot Hlast.
  pose proof (date_ok_year _ Htoday) as Hy.
  assert (Hthis : date_ok (mk_date (year today) (month b) (day b)) = true).
  { apply date_ok_other_year; assumption. }
  assert (Hnext : date_ok (mk_date (year today + 1) (month b) (day b)) = true).
  { apply date_ok_other_year; try assumption.
    unfold MINYEAR, MAXYEAR in *. lia. }
  unfold Rec.days_to_birthday. rewrite Hb.
  cbn [Birthday.get_month Birthday.get_day Birthday._value obind].
  rewrite (date_new_ok _ _ _ Hthis). cbn [obind].
  destruct today as [y m d]. cbn [year month day] in *.
  destruct (date_ltb (mk_date y (month b) (day b)) (mk_date y m d)) eqn:Hlt.
  - unfold date_replace_year. cbn [month day].
    rewrite (date_new_ok _ _ _ Hnext). cbn [obind].
    exists (mk_date (y + 1) (month b) (day b)).
    pose proof (toordinal_next_year y (month b) (day b) m d Hnext Htoday).
    repeat split; try assumption; try lia.
    + unfold date_ltb. cbn [year month day].
      rewrite (proj2 (Z.ltb_ge _ _)) by lia.
      rewrite (proj2 (Z.eqb_neq _ _)) by lia. reflexivity.
    + intros -> ->. unfold date_ltb in Hlt. cbn [year month day] in Hlt.
      rewrite !Z.ltb_irrefl, !Z.eqb_refl in Hlt. discriminate.
  - cbn [obind].
    exists (mk_date y (month b) (day b)).
    pose proof (toordinal_same_year y (month b) (day b) m d Hthis Htoday Hlt).
    repeat split; try assumption; try lia.
    intros -> ->. lia.
Qed.

Lemma days_to_birthday_counts_days_witness :
  exists next,
    Rec.days_to_birthday (mk_date 2024 3 15)
      (Rec.mk (Name.mk (VStr (lit "Ann"))) []
         (Some (Birthday.mk (VDate (mk_date 1990 1 10))))) =
      Returned (Some (toordinal next - toordinal (mk_date 2024 3 15)))
    /\ month next = 1 /\ day next = 10
    /\ year next = 2025
    /\ date_ok next = true
    /\ date_ltb next (mk_date 2024 3 15) = false
    /\ 0 <= toordinal next - toordinal (mk_date 2024 3 15)
    /\ (3 = 1 -> 15 = 10 ->
        toordinal next - toordinal (mk_date 2024 3 15) = 0).
Proof.
  apply (days_to_birthday_counts_days (mk_date 2024 3 15) (mk_date 1990 1 10));
    try reflexivity.
  - intros [H _]. discriminate H.
Defined.

(** ** Missing keys and missing files *)

(** [delete_record] of a name that is no key raises [KeyError] and changes
    nothing. *)
Lemma delete_record_missing_name (s : state) (name : str) :
  name ∉ dict_keys (data s) ->
  delete_record name s = (Raised (KeyError name), s).
Proof.
  intros H. unfold delete_record.
  enough (dict_del name (data s) = None) as -> by reflexivity.
  unfold dict_keys in H. induction (data s) as [|[k v] d IH]; [reflexivity|].
  cbn in H. apply not_elem_of_cons in H as [Hne Hd].
  cbn [dict_del]. unfold str_eqb.
  rewrite bool_decide_eq_false_2 by congruence.
  now rewrite (IH Hd).
Qed.

Lemma delete_record_missing_name_witness :
  delete_record (lit "Unknown") book_with_bob =
  (Raised (KeyError (lit "Unknown")), book_with_bob).
Proof.
  apply delete_record_missing_name.
  apply dict_get_None. vm_compute. reflexivity.
Defined.

(** [load_from_file] of a file that does not exist prints the notice and
    leaves the dictionary and its records as they were. *)
Lemma load_from_file_missing {blob : Type} (pickle_loads : blob -> option image)
  (s : state) (filename : str) (fs : gmap str blob) :
  fs !! filename = None ->
  exists s',
    load_from_file pickle_loads filename fs s = (Returned tt, s')
    /\ data s' = data s /\ heap s' = heap s
    /\ stdout s' =
       stdout s ++ [lit "File not found. Starting with an empty address book."].
Proof.
  intros H. unfold load_from_file. rewrite H.
  eexists. repeat split.
Qed.

Lemma load_from_file_missing_witness :
  exists s',
    load_from_file (blob := image) Some (lit "book.bin") ∅ book_with_bob =
      (Returned tt, s')
    /\ data s' = data book_with_bob /\ heap s' = heap book_with_bob
    /\ stdout s' =
       stdout book_with_bob
       ++ [lit "File not found. Starting with an empty address book."].
Proof.
  apply (load_from_file_missing (blob := image) Some book_with_bob
           (lit "book.bin") ∅).
  apply lookup_empty.
Defined.

(** ** Birthday validation: [strftime] then [strptime] *)

Lemma Z_range_elem lo len z : lo <= z < lo + len -> In z (Z_range lo len).
Proof.
  intros H. unfold Z_range. apply list_elem_of_In, list_elem_of_fmap.
  exists (Z.to_nat (z - lo)). split; [lia|].
  apply list_elem_of_In, in_seq. lia.
Qed.

Lemma years_read_back : forallb year_reads_back (Z_range 1000 9000) = true.
Proof. vm_compute. reflexivity. Qed.

Lemma years_are_short : forallb year_is_short (Z_range 1 999) = true.
Proof. vm_compute. reflexivity. Qed.

Lemma days_read_back : forallb day_reads_back (Z_range 1 31) = true.
Proof. vm_compute. reflexivity. Qed.

Lemma year_reads_back_true y :
  1000 <= y <= 9999 -> year_reads_back y = true.
Proof.
  intros H. pose proof years_read_back as Hall.
  rewrite forallb_forall in Hall. apply Hall, Z_range_elem. lia.
Qed.

Lemma year_is_short_true y : 1 <= y <= 999 -> year_is_short y = true.
Proof.
  intros H. pose proof years_are_short as Hall.
  rewrite forallb_forall in Hall. apply Hall, Z_range_elem. lia.
Qed.

Lemma day_reads_back_true d : 1 <= d <= 31 -> day_reads_back d = true.
Proof.
  intros H. pose proof days_read_back as Hall.
  rewrite forallb_forall in Hall. apply Hall, Z_range_elem. lia.
Qed.

Lemma days_in_month_le_31 y m : days_in_month y m <= 31.
Proof.
  unfold days_in_month.
  repeat match goal with
         | |- context [match ?x with _ => _ end] => destruct x
         end; lia.
Qed.

(** The month group followed by ['-'] and a day: the two characters of
    [%m] are read as the month. *)
Lemma month_reads_back m s2 :
  1 <= m <= 12 -> day_alts s2 <> [] ->
  List.find (fun mr : Z * str =>
               match snd mr with
               | 45%N :: s2 => negb (bool_decide (day_alts s2 = []))
               | _ => false
               end) (month_alts (pad2 m ++ 45%N :: s2)) =
  Some (m, 45%N :: s2).
Proof.
  intros Hm Hday.
  assert (Hb : negb (bool_decide (day_alts s2 = [])) = true).
  { now rewrite bool_decide_eq_false_2. }
  each_month Hm;
    match goal with
    | |- context [pad2 ?k] =>
      let v := eval vm_compute in (pad2 k) in change (pad2 k) with v
    end;
    cbn -[day_alts bool_decide]; rewrite ?Hb; reflexivity.
Qed.

Lemma lit_dash : lit "-" = [45%N].
Proof. reflexivity. Qed.

Lemma digit_value_dash : digit_value 45 = None.
Proof. vm_compute. reflexivity. Qed.

(** Formatting a date of a year with four digits and parsing the text gives
    the date back. *)
Lemma strptime_strftime d :
  date_ok d = true -> 1000 <= year d ->
  strptime_Ymd (strftime_Ymd d) = Some d.
Proof.
  intros Hok Hy. pose proof Hok as Hok'.
  apply date_ok_fields in Hok' as ((_ & Hmax) & Hm & Hd).
  destruct d as [y m dd]. cbn [year month day] in *.
  unfold MAXYEAR in Hmax.
  pose proof (year_reads_back_true y (conj Hy Hmax)) as Hyear.
  pose proof (days_in_month_le_31 y m) as H31.
  pose proof (day_reads_back_true dd ltac:(lia)) as Hday.
  unfold year_reads_back in Hyear. unfold day_reads_back in Hday.
  unfold strftime_Ymd. cbn [year month day]. rewrite lit_dash.
  destruct (decimalZ y) as [|a [|b [|c [|e [|? ?]]]]]; try discriminate.
  destruct (digit_value a) as [va|] eqn:Ha; [|discriminate].
  destruct (digit_value b) as [vb|] eqn:Hb; [|discriminate].
  destruct (digit_value c) as [vc|] eqn:Hc; [|discriminate].
  destruct (digit_value e) as [ve|] eqn:He; [|discriminate].
  apply Z.eqb_eq in Hyear.
  destruct (day_alts (pad2 dd)) as [|[v [|? ?]] alts] eqn:Halts;
    try discriminate.
  apply Z.eqb_eq in Hday. subst v.
  cbn [app]. unfold strptime_Ymd. rewrite Ha, Hb, Hc, He.
  rewrite month_reads_back by (try assumption; rewrite Halts; discriminate).
  rewrite Halts, Hyear, (date_new_ok _ _ _ Hok). reflexivity.
Qed.

(** With a year of fewer than four digits the text does not parse. *)
Lemma strptime_strftime_early d :
  date_ok d = true -> year d < 1000 ->
  strptime_Ymd (strftime_Ymd d) = None.
Proof.
  intros Hok Hy.
  apply date_ok_fields in Hok as ((Hmin & _) & Hm & _).
  destruct d as [y m dd]. cbn [year month day] in *.
  unfold MINYEAR in Hmin.
  pose proof (year_is_short_true y ltac:(lia)) as Hshort.
  unfold year_is_short in Hshort.
  unfold strftime_Ymd. cbn [year month day]. rewrite lit_dash.
  destruct (decimalZ y) as [|a [|b [|c [|? ?]]]]; try discriminate;
    each_month Hm;
    match goal with
    | |- context [pad2 ?k ++ _] =>
      let v := eval vm_compute in (pad2 k) in change (pad2 k) with v
    end;
    cbn [app]; unfold strptime_Ymd; rewrite ?digit_value_dash;
    repeat match goal with
           | |- context [match digit_value ?x with _ => _ end] =>
             destruct (digit_value x)
           end; reflexivity.
Qed.

(** [Birthday] takes every date from the year 1000 on, and gives back its
    value, month and day. *)
Theorem Birthday_accepts_four_digit_years (d : date) :
  date_ok d = true -> 1000 <= year d ->
  exists b,
    Birthday.new (VDate d) = Returned b
    /\ Birthday.get_value b = VDate d
    /\ Birthday.get_month b = Returned (month d)
    /\ Birthday.get_day b = Returned (day d).
Proof.
  intros Hok Hy. exists (Birthday.mk (VDate d)).
  unfold Birthday.new. rewrite Birthday_set_value_eq.
  cbn [Birthday.validate_birthday].
  rewrite (strptime_strftime d Hok Hy). repeat split.
Qed.

Lemma Birthday_accepts_four_digit_years_witness :
  exists b,
    Birthday.new (VDate (mk_date 1990 5 1)) = Returned b
    /\ Birthday.get_value b = VDate (mk_date 1990 5 1)
    /\ Birthday.get_month b = Returned 5
    /\ Birthday.get_day b = Returned 1.
Proof.
  apply (Birthday_accepts_four_digit_years (mk_date 1990 5 1)).
  - reflexivity.
  - cbn. lia.
Defined.

(** A date before the year 1000 is no birthday: [%Y] prints its year with
    fewer than four characters, the text does not parse back, and both
    [Birthday] and [Record] raise [ValueError]. *)
Theorem Birthday_rejects_early_years (d : date) (name : str)
  (phone : option str) :
  date_ok d = true -> year d < 1000 ->
  Birthday.validate_birthday (VDate d) = Returned false
  /\ Birthday.new (VDate d) = Raised (ValueError (lit "Invalid birthday"))
  /\ Rec.new name phone (Some d) = Raised (ValueError (lit "Invalid birthday")).
Proof.
  intros Hok Hy.
  assert (Hnew : Birthday.new (VDate d) =
                 Raised (ValueError (lit "Invalid birthday"))).
  { unfold Birthday.new. rewrite Birthday_set_value_eq.
    cbn [Birthday.validate_birthday].
    now rewrite (strptime_strftime_early d Hok Hy). }
  split; [|split].
  - cbn [Birthday.validate_birthday].
    now rewrite (strptime_strftime_early d Hok Hy).
  - exact Hnew.
  - unfold Rec.new. rewrite Hnew. reflexivity.
Qed.

Lemma Birthday_rejects_early_years_witness :
  Birthday.validate_birthday (VDate (mk_date 999 12 31)) = Returned false
  /\ Birthday.new (VDate (mk_date 999 12 31)) =
     Raised (ValueError (lit "Invalid birthday"))
  /\ Rec.new (lit "Leif") (Some (lit "123")) (Some (mk_date 999 12 31)) =
     Raised (ValueError (lit "Invalid birthday")).
Proof.
  apply (Birthday_rejects_early_years (mk_date 999 12 31)).
  - reflexivity.
  - cbn. lia.
Defined.

(** ** The phones of a record *)

Lemma index_from_spec wanted ps : forall inx,
  match Rec.index_from wanted ps inx with
  | Some i =>
    exists k p, i = (inx + k)%nat /\ ps !! k = Some p
                /\ Phone.get_value p = wanted
                /\ forall j q, (j < k)%nat -> ps !! j = Some q ->
                               Phone.get_value q <> wanted
  | None => Forall (fun p => Phone.get_value p <> wanted) ps
  end.
Proof.
  induction ps as [|p ps IH]; intros inx; cbn [Rec.index_from].
  - constructor.
  - unfold value_eqb. case_bool_decide as Hp.
    + exists 0%nat, p. repeat split; [lia | assumption | lia].
    + specialize (IH (S inx)).
      destruct (Rec.index_from wanted ps (S inx)) as [i|].
      * destruct IH as (k & q & -> & Hk & Hq & Hbefore).
        exists (S k), q. repeat split; [lia | assumption | assumption |].
        intros [|j] q' Hj Hq'; cbn in Hq'.
        -- now injection Hq' as <-.
        -- eapply Hbefore; [|eassumption]. lia.
      * constructor; assumption.
Qed.

(** [get_index_by_phone] finds the first phone holding the value asked for,
    whether it is given as a value or as a [Phone] object; it answers [None]
    exactly when no phone of the record holds it. *)
Theorem get_index_by_phone_first (rec : Rec.t) (phone : phone_arg) :
  let wanted := match phone with
                | APhone p => Phone.get_value p
                | AValue v => v
                end in
  match Rec.get_index_by_phone phone rec with
  | Some i =>
    exists p, Rec.phones rec !! i = Some p /\ Phone.get_value p = wanted
              /\ forall j q, (j < i)%nat -> Rec.phones rec !! j = Some q ->
                             Phone.get_value q <> wanted
  | None => Forall (fun p => Phone.get_value p <> wanted) (Rec.phones rec)
  end.
Proof.
  intros wanted. unfold Rec.get_index_by_phone. fold wanted.
  pose proof (index_from_spec wanted (Rec.phones rec) 0) as H.
  destruct (Rec.index_from wanted (Rec.phones rec) 0) as [i|]; [|exact H].
  destruct H as (k & p & -> & Hk & Hp & Hbefore). exists p. auto.
Qed.

(** [remove_phone] deletes the first phone holding the value and no other,
    and answers with the confirmation; when no phone holds the value it
    raises [ValueError] and the record is as before. *)
Theorem remove_phone_removes_first
  (object_repr : Phone.t -> str) (rec : Rec.t) (phone : phone_arg) :
  let wanted := match phone with
                | APhone p => Phone.get_value p
                | AValue v => v
                end in
  (Forall (fun p => Phone.get_value p <> wanted) (Rec.phones rec)
   /\ Rec.remove_phone object_repr phone rec =
      (Raised (ValueError (lit "The phone not found "
                           ++ Rec.str_of_arg object_repr phone)), rec))
  \/ (exists i p,
        Rec.phones rec !! i = Some p /\ Phone.get_value p = wanted
        /\ (forall j q, (j < i)%nat -> Rec.phones rec !! j = Some q ->
                        Phone.get_value q <> wanted)
        /\ Rec.remove_phone object_repr phone rec =
           (Returned (lit "The phone deleted "
                      ++ Rec.str_of_arg object_repr phone),
            Rec.set_phones (take i (Rec.phones rec)
                            ++ drop (S i) (Rec.phones rec)) rec)).
Proof.
  intros wanted. pose proof (get_index_by_phone_first rec phone) as H.
  cbv zeta in H. fold wanted in H. unfold Rec.remove_phone.
  destruct (Rec.get_index_by_phone phone rec) as [i|].
  - right. destruct H as (p & Hi & Hp & Hbefore). exists i, p.
    repeat split; try assumption.
    now rewrite delete_take_drop.
  - left. split; [assumption | reflexivity].
Qed.

Lemma index_from_app_fresh wanted ps p : forall inx,
  Forall (fun q => Phone.get_value q <> wanted) ps ->
  Phone.get_value p = wanted ->
  Rec.index_from wanted (ps ++ [p]) inx = Some (inx + length ps)%nat.
Proof.
  induction ps as [|q ps IH]; intros inx Hall Hp; cbn [app Rec.index_from].
  - unfold value_eqb. rewrite bool_decide_eq_true_2 by assumption.
    cbn. f_equal. lia.
  - apply Forall_cons in Hall as [Hq Hall].
    unfold value_eqb. rewrite bool_decide_eq_false_2 by assumption.
    rewrite IH by assumption. cbn. f_equal. lia.
Qed.

Lemma delete_appended {A} (l : list A) (x : A) :
  delete (length l) (l ++ [x]) = l.
Proof.
  induction l as [|y l IH]; [reflexivity|]. cbn. f_equal. exact IH.
Qed.

(** Adding a number the record does not hold yet and removing it again
    gives the record back. *)
Theorem remove_phone_undoes_add_phone
  (object_repr : Phone.t -> str) (rec : Rec.t) (s : str) :
  str_isdigit s = true ->
  Forall (fun p => Phone.get_value p <> VStr s) (Rec.phones rec) ->
  exists rec',
    Rec.add_phone (AValue (VStr s)) rec = (Returned tt, rec')
    /\ Rec.phones rec' = Rec.phones rec ++ [phone_of s]
    /\ Rec.remove_phone object_repr (AValue (VStr s)) rec' =
       (Returned (lit "The phone deleted " ++ s), rec).
Proof.
  intros Hs Hfresh. rewrite add_phone_str, Hs.
  eexists. split; [reflexivity|]. split; [reflexivity|].
  unfold Rec.remove_phone, Rec.get_index_by_phone.
  cbn [Rec.phones Rec.set_phones].
  rewrite index_from_app_fresh by (assumption || reflexivity).
  cbn [Rec.str_of_arg str_of_value Rec.phones Rec.set_phones
       Rec.name Rec.birthday Nat.add].
  rewrite delete_appended. now destruct rec.
Qed.

Lemma remove_phone_undoes_add_phone_witness :
  exists rec',
    Rec.add_phone (AValue (VStr (lit "222")))
      (Rec.mk (Name.mk (VStr (lit "Ann"))) [phone_of (lit "111")] None) =
      (Returned tt, rec')
    /\ Rec.phones rec' = [phone_of (lit "111")] ++ [phone_of (lit "222")]
    /\ Rec.remove_phone some_repr (AValue (VStr (lit "222"))) rec' =
       (Returned (lit "The phone deleted " ++ lit "222"),
        Rec.mk (Name.mk (VStr (lit "Ann"))) [phone_of (lit "111")] None).
Proof.
  apply (remove_phone_undoes_add_phone some_repr
           (Rec.mk (Name.mk (VStr (lit "Ann"))) [phone_of (lit "111")] None)
           (lit "222")).
  - vm_compute. reflexivity.
  - repeat constructor. vm_compute. discriminate.
Defined.





(** ** Records hold valid phones only *)

Lemma phone_of_valid s :
  str_isdigit s = true ->
  Phone.validate_phone (Phone.get_value (phone_of s)) = true.
Proof. intros H. exact H. Qed.

Lemma Rec_new_phones_valid name phone birthday rec :
  Rec.new name phone birthday = Returned rec -> phones_valid rec.
Proof.
  unfold Rec.new, phones_valid.
  destruct (match birthday with
            | Some d => _
            | None => _
            end) as [b|e]; cbn [obind]; [|discriminate].
  destruct phone as [[|c s]|]; try (intros [= <-]; constructor).
  rewrite add_phone_str. destruct (str_isdigit (c :: s)) eqn:Hs;
    [|discriminate].
  intros [= <-]. cbn. repeat constructor. exact Hs.
Qed.

Lemma edit_phone_loop_valid old_phone new_phone ps o ps' :
  Forall (fun p => Phone.validate_phone (Phone.get_value p) = true) ps ->
  Rec.edit_phone_loop old_phone new_phone ps = (o, ps') ->
  Forall (fun p => Phone.validate_phone (Phone.get_value p) = true) ps'.
Proof.
  revert o ps'. induction ps as [|p ps IH]; intros o ps' Hall;
    cbn [Rec.edit_phone_loop].
  - intros [= <- <-]. constructor.
  - apply Forall_cons in Hall as [Hp Hall].
    destruct (Rec.matches_old old_phone p).
    + rewrite Phone_set_value_eq.
      destruct (Phone.validate_phone new_phone) eqn:Hnew;
        intros [= <- <-]; constructor; assumption.
    + destruct (Rec.edit_phone_loop old_phone new_phone ps) as [o1 ps1].
      intros [= <- <-]. constructor; [assumption|].
      eapply IH; [assumption | reflexivity].
Qed.

(** A record made by [Record(...)] and changed through [add_phone],
    [edit_phone] and [remove_phone] holds valid phones only, whatever those
    calls were given and whether they returned or raised. *)
Theorem Record_phones_always_valid (rec : Rec.t) :
  Record_reachable rec -> phones_valid rec.
Proof.
  induction 1 as [name phone birthday rec Hnew
                 | v rec o rec' _ IH Hadd
                 | p rec o rec' _ IH Hp Hadd
                 | old new rec o rec' _ IH Hedit
                 | repr phone rec o rec' _ IH Hrem].
  - eapply Rec_new_phones_valid, Hnew.
  - unfold phones_valid in *. destruct v as [|s| |];
      try (injection Hadd as _ <-; assumption).
    rewrite add_phone_str in Hadd.
    destruct (str_isdigit s) eqn:Hs; injection Hadd as _ <-;
      [|assumption].
    cbn. apply Forall_app. split; [assumption|].
    repeat constructor. exact Hs.
  - unfold phones_valid in *. injection Hadd as _ <-. cbn.
    apply Forall_app. split; [assumption|]. repeat constructor.
    apply Phone_reachable_valid, Hp.
  - unfold phones_valid in *. unfold Rec.edit_phone in Hedit.
    destruct (Rec.edit_phone_loop old new (Rec.phones rec)) as [o1 ps1] eqn:Hl.
    injection Hedit as _ <-. cbn. eapply edit_phone_loop_valid; eassumption.
  - unfold phones_valid in *. unfold Rec.remove_phone in Hrem.
    destruct (Rec.get_index_by_phone phone rec) as [i|];
      injection Hrem as _ <-; [|assumption].
    cbn. rewrite delete_take_drop. apply Forall_app. split.
    + apply Forall_take, IH.
    + apply Forall_drop, IH.
Qed.

Lemma Record_phones_always_valid_witness :
  phones_valid
    (Rec.edit_phone (AValue (VStr (lit "111"))) (VStr (lit "12a"))
       (Rec.mk (Name.mk (VStr (lit "Ann"))) [phone_of (lit "111")] None)).2.
Proof.
  apply Record_phones_always_valid.
  eapply (Record_after_edit (AValue (VStr (lit "111"))) (VStr (lit "12a"))
            (Rec.mk (Name.mk (VStr (lit "Ann"))) [phone_of (lit "111")] None)).
  - apply (Record_created (lit "Ann") (Some (lit "111")) None).
    vm_compute. reflexivity.
  - apply surjective_pairing.
Defined.

(** ** Dictionary updates *)

Lemma dict_get_set_eq {V} k (v : V) d : dict_get k (dict_set k v d) = Some v.
Proof.
  induction d as [|[k' v'] d IH]; cbn [dict_set dict_get]; unfold str_eqb.
  - now rewrite bool_decide_eq_true_2.
  - case_bool_decide as Hk; cbn [dict_get]; unfold str_eqb.
    + now rewrite bool_decide_eq_true_2.
    + now rewrite bool_decide_eq_false_2.
Qed.

Lemma dict_get_set_ne {V} k k0 (v : V) d :
  k0 <> k -> dict_get k0 (dict_set k v d) = dict_get k0 d.
Proof.
  intros Hne.
  induction d as [|[k' v'] d IH]; cbn [dict_set dict_get]; unfold str_eqb.
  - now rewrite bool_decide_eq_false_2.
  - case_bool_decide as Hk; cbn [dict_get]; unfold str_eqb.
    + subst k'. now rewrite !bool_decide_eq_false_2 by congruence.
    + case_bool_decide; [reflexivity | exact IH].
Qed.

Lemma dict_keys_set {V} k (v : V) d :
  dict_keys (dict_set k v d) =
  match dict_get k d with
  | Some _ => dict_keys d
  | None => dict_keys d ++ [k]
  end.
Proof.
  unfold dict_keys.
  induction d as [|[k' v'] d IH]; cbn [dict_set dict_get]; [reflexivity|].
  unfold str_eqb. case_bool_decide as Hk; [reflexivity|].
  cbn. rewrite IH. now destruct (dict_get k d).
Qed.

Lemma dict_set_wf {V} k (v : V) d : dict_wf d -> dict_wf (dict_set k v d).
Proof.
  unfold dict_wf. intros Hwf. rewrite dict_keys_set.
  destruct (dict_get k d) eqn:Hget; [assumption|].
  apply NoDup_app. repeat split; [assumption| |apply NoDup_singleton].
  intros x Hx Hx'. apply list_elem_of_singleton in Hx'. subst x.
  apply dict_get_None in Hget. contradiction.
Qed.

Lemma elem_key {V} k (v : V) d : (k, v) ∈ d -> k ∈ dict_keys d.
Proof.
  intros H. unfold dict_keys. apply list_elem_of_fmap. exists (k, v). auto.
Qed.

Lemma dict_get_elem {V} k (v : V) d :
  dict_wf d -> (k, v) ∈ d -> dict_get k d = Some v.
Proof.
  intros Hwf H. apply list_elem_of_lookup in H as [i Hi].
  eapply dict_get_lookup; eassumption.
Qed.

Lemma dict_set_elem {V} k (v : V) d k0 v0 :
  dict_wf d -> (k0, v0) ∈ dict_set k v d ->
  (k0 = k /\ v0 = v) \/ (k0 <> k /\ (k0, v0) ∈ d).
Proof.
  intros Hwf H. pose proof (dict_set_wf k v d Hwf) as Hwf'.
  apply (dict_get_elem _ _ _ Hwf') in H.
  destruct (decide (k0 = k)) as [->|Hne].
  - rewrite dict_get_set_eq in H. injection H as <-. auto.
  - rewrite dict_get_set_ne in H by assumption.
    right. split; [assumption|]. now apply dict_get_Some_elem.
Qed.

Lemma dict_del_spec {V} k (d : list (str * V)) :
  dict_wf d ->
  match dict_del k d with
  | None => k ∉ dict_keys d
  | Some d' =>
    k ∈ dict_keys d /\ dict_wf d' /\ dict_get k d' = None
    /\ (forall k0, k0 <> k -> dict_get k0 d' = dict_get k0 d)
    /\ dict_keys d' = List.filter (fun k0 => negb (str_eqb k0 k)) (dict_keys d)
    /\ d' ⊆ d
  end.
Proof.
  unfold dict_wf, dict_keys.
  induction d as [|[k' v'] d IH]; intros Hwf; cbn [dict_del].
  - apply not_elem_of_nil.
  - cbn in Hwf. apply NoDup_cons in Hwf as [Hfresh Hwf].
    specialize (IH Hwf). unfold str_eqb. case_bool_decide as Hk.
    + subst k'. repeat split.
      * apply list_elem_of_here.
      * assumption.
      * apply dict_get_None, Hfresh.
      * intros k0 Hne. cbn [dict_get]. unfold str_eqb.
        now rewrite bool_decide_eq_false_2 by congruence.
      * rewrite fmap_cons. cbn [fst List.filter]. unfold str_eqb.
        rewrite bool_decide_eq_true_2 by reflexivity.
        cbn [negb]. symmetry. apply forallb_filter_id. apply forallb_forall.
        intros x Hx. apply negb_true_iff, bool_decide_eq_false_2.
        intros ->. apply Hfresh, list_elem_of_In, Hx.
      * intros x Hx. now apply list_elem_of_further.
    + destruct (dict_del k d) as [d'|]; cbn [fmap option_fmap option_map].
      * destruct IH as (Hin & Hwf' & Hnone & Hother & Hkeys & Hsub).
        repeat split.
        -- now apply list_elem_of_further.
        -- rewrite fmap_cons. apply NoDup_cons. split; [|assumption].
           rewrite Hkeys. intros Hx. apply Hfresh.
           apply list_elem_of_In, filter_In in Hx as [Hx _].
           apply list_elem_of_In, Hx.
        -- cbn [dict_get]. unfold str_eqb.
           now rewrite bool_decide_eq_false_2.
        -- intros k0 Hne. cbn [dict_get]. unfold str_eqb.
           case_bool_decide; [reflexivity | now apply Hother].
        -- rewrite !fmap_cons. cbn [fst List.filter]. unfold str_eqb.
           rewrite bool_decide_eq_false_2 by assumption.
           cbn [negb]. f_equal. exact Hkeys.
        -- intros x Hx. apply elem_of_cons in Hx as [->|Hx];
             [apply list_elem_of_here | apply list_elem_of_further, Hsub, Hx].
      * apply not_elem_of_cons.
        split; [intros Heq; apply Hk; now symmetry | assumption].
Qed.

(** ** add_record and delete_record *)

Lemma valid_prefix_all l : forallb str_isdigit l = true -> valid_prefix l = l.
Proof.
  induction l as [|p l IH]; [reflexivity|]. cbn [forallb valid_prefix].
  intros H. apply andb_true_iff in H as [Hp Hl]. now rewrite Hp, IH.
Qed.

(** What [add_record] does, in one equation: nothing when the record cannot
    be made, else a new object under [name]. *)
Lemma add_record_eq name phones birthday s :
  add_record name phones birthday s =
  match Rec.new name None birthday with
  | Raised e => (Raised e, s)
  | Returned record =>
    if forallb str_isdigit (default [] phones)
    then (Returned tt,
          set_data (dict_set name (length (heap s)) (data s))
            (set_heap
               (heap s ++ [Rec.set_phones
                             (Rec.phones record ++ (phone_of <$> default [] phones))
                             record]) s))
    else (Raised (ValueError (lit "Invalid phone number")), s)
  end.
Proof.
  unfold add_record. destruct (Rec.new name None birthday) as [record|e];
    cbn [obind]; [|reflexivity].
  destruct phones as [[|p l]|]; cbn [truthy default from_option id forallb];
    try (cbn [fmap list_fmap]; rewrite app_nil_r, set_phones_same;
         reflexivity).
  rewrite add_phones_local. cbn [forallb].
  destruct (str_isdigit p && forallb str_isdigit l) eqn:Hall; [|reflexivity].
  change (str_isdigit p && forallb str_isdigit l)
    with (forallb str_isdigit (p :: l)) in Hall.
  now rewrite (valid_prefix_all _ Hall).
Qed.

(** [add_record] with phones that are all valid and a birthday [Birthday]
    takes (or none) returns, makes a new record of exactly these fields,
    and puts it under [name]: a key already there keeps its place and now
    refers to the new record, a new key goes last; the other keys and all
    records made before are as they were. *)
Theorem add_record_stores_new_record
  (s : state) (name : str) (phones : option (list str))
  (birthday : option date) :
  Forall (fun p => Phone.validate_phone (VStr p) = true) (default [] phones) ->
  match birthday with
  | Some d => date_ok d = true /\ 1000 <= year d
  | None => True
  end ->
  exists s',
    add_record name phones birthday s = (Returned tt, s')
    /\ dict_get name (data s') = Some (length (heap s))
    /\ heap s' !! length (heap s) =
       Some (Rec.mk (Name.mk (VStr name)) (phone_of <$> default [] phones)
               ((fun d => Birthday.mk (VDate d)) <$> birthday))
    /\ (forall r, (r < length (heap s))%nat -> heap s' !! r = heap s !! r)
    /\ (forall k, k <> name -> dict_get k (data s') = dict_get k (data s))
    /\ dict_keys (data s') =
       match dict_get name (data s) with
       | Some _ => dict_keys (data s)
       | None => dict_keys (data s) ++ [name]
       end.
Proof.
  intros Hphones Hbirthday.
  assert (Hall : forallb str_isdigit (default [] phones) = true).
  { apply forallb_forall. intros p Hp.
    rewrite Forall_forall in Hphones. apply Hphones, list_elem_of_In, Hp. }
  assert (Hnew : Rec.new name None birthday =
                 Returned (Rec.mk (Name.mk (VStr name)) []
                             ((fun d => Birthday.mk (VDate d)) <$> birthday))).
  { rewrite Rec_new_no_phone. destruct birthday as [d|]; [|reflexivity].
    destruct Hbirthday as [Hok Hy].
    now rewrite (strptime_strftime d Hok Hy). }
  rewrite add_record_eq, Hnew, Hall. eexists. split; [reflexivity|].
  cbn [data heap set_data set_heap Rec.phones Rec.set_phones Rec.name
       Rec.birthday app].
  repeat split.
  - apply dict_get_set_eq.
  - rewrite lookup_app_r by lia. now rewrite Nat.sub_diag.
  - intros r Hr. now rewrite lookup_app_l.
  - intros k Hk. now apply dict_get_set_ne.
  - apply dict_keys_set.
Qed.

Lemma add_record_stores_new_record_witness :
  exists s',
    add_record (lit "Ann") (Some [lit "12345"]) (Some (mk_date 1990 5 1))
      book_with_bob = (Returned tt, s')
    /\ dict_get (lit "Ann") (data s') = Some (length (heap book_with_bob))
    /\ heap s' !! length (heap book_with_bob) =
       Some (Rec.mk (Name.mk (VStr (lit "Ann"))) [phone_of (lit "12345")]
               (Some (Birthday.mk (VDate (mk_date 1990 5 1)))))
    /\ (forall r, (r < length (heap book_with_bob))%nat ->
                  heap s' !! r = heap book_with_bob !! r)
    /\ (forall k, k <> lit "Ann" ->
                  dict_get k (data s') = dict_get k (data book_with_bob))
    /\ dict_keys (data s') =
       match dict_get (lit "Ann") (data book_with_bob) with
       | Some _ => dict_keys (data book_with_bob)
       | None => dict_keys (data book_with_bob) ++ [lit "Ann"]
       end.
Proof.
  apply (add_record_stores_new_record book_with_bob (lit "Ann")
           (Some [lit "12345"]) (Some (mk_date 1990 5 1))).
  - apply Forall_forallb_true. vm_compute. reflexivity.
  - split; [reflexivity | cbn; lia].
Defined.

(** [delete_record] of a key of the book returns and takes that key out;
    the other keys stay, in their order and with their records, and no
    record changes. *)
Theorem delete_record_removes_key (s : state) (name : str) :
  dict_wf (data s) -> name ∈ dict_keys (data s) ->
  exists s',
    delete_record name s = (Returned tt, s')
    /\ dict_get name (data s') = None
    /\ (forall k, k <> name -> dict_get k (data s') = dict_get k (data s))
    /\ dict_keys (data s') =
       List.filter (fun k => negb (str_eqb k name)) (dict_keys (data s))
    /\ dict_wf (data s')
    /\ heap s' = heap s.
Proof.
  intros Hwf Hin. pose proof (dict_del_spec name (data s) Hwf) as Hdel.
  unfold delete_record. destruct (dict_del name (data s)) as [d'|].
  - destruct Hdel as (_ & Hwf' & Hnone & Hother & Hkeys & _).
    eexists. split; [reflexivity|]. cbn [data heap set_data]. auto.
  - contradiction.
Qed.

Lemma delete_record_removes_key_witness :
  exists s',
    delete_record (lit "Cy") book_of_five = (Returned tt, s')
    /\ dict_get (lit "Cy") (data s') = None
    /\ (forall k, k <> lit "Cy" ->
                  dict_get k (data s') = dict_get k (data book_of_five))
    /\ dict_keys (data s') =
       List.filter (fun k => negb (str_eqb k (lit "Cy")))
         (dict_keys (data book_of_five))
    /\ dict_wf (data s')
    /\ heap s' = heap book_of_five.
Proof.
  apply (delete_record_removes_key book_of_five (lit "Cy") book_of_five_wf).
  apply (bool_decide_unpack _). vm_compute. exact I.
Defined.

(** ** Books made by add_record and delete_record *)

Lemma Rec_new_name name birthday record :
  Rec.new name None birthday = Returned record ->
  Rec.name record = Name.mk (VStr name).
Proof.
  rewrite Rec_new_no_phone. destruct birthday as [d|].
  - destruct (strptime_Ymd (strftime_Ymd d)); [|discriminate].
    now intros [= <-].
  - now intros [= <-].
Qed.

Lemma dict_set_values {V} k (v : V) d x :
  x ∈ dict_values (dict_set k v d) -> x = v \/ x ∈ dict_values d.
Proof.
  unfold dict_values.
  induction d as [|[k' v'] d IH]; cbn [dict_set].
  - rewrite fmap_cons. intros H. apply elem_of_cons in H as [->|H]; auto.
  - unfold str_eqb. case_bool_decide as Hk; rewrite !fmap_cons; intros H;
      apply elem_of_cons in H as [->|H]; cbn [snd]; auto.
    + right. now apply list_elem_of_further.
    + right. apply list_elem_of_here.
    + destruct (IH H); [auto|]. right. now apply list_elem_of_further.
Qed.

Lemma dict_set_values_NoDup {V} k (v : V) d :
  NoDup (dict_values d) -> v ∉ dict_values d ->
  NoDup (dict_values (dict_set k v d)).
Proof.
  unfold dict_values.
  induction d as [|[k' v'] d IH]; cbn [dict_set]; intros Hnd Hv.
  - apply NoDup_singleton.
  - rewrite fmap_cons in Hnd, Hv. apply NoDup_cons in Hnd as [Hv' Hnd].
    apply not_elem_of_cons in Hv as [Hne Hv].
    unfold str_eqb. case_bool_decide as Hk; rewrite fmap_cons;
      apply NoDup_cons.
    + split; assumption.
    + split; [|now apply IH]. intros Hx.
      apply dict_set_values in Hx as [Hx|Hx]; [|contradiction].
      cbn in Hx, Hne. congruence.
Qed.

Lemma dict_del_values_NoDup {V} k (d d' : list (str * V)) :
  dict_del k d = Some d' -> NoDup (dict_values d) ->
  NoDup (dict_values d') /\ dict_values d' ⊆ dict_values d.
Proof.
  unfold dict_values. revert d'.
  induction d as [|[k' v'] d IH]; intros d'; cbn [dict_del]; [discriminate|].
  rewrite fmap_cons. intros Hdel Hnd. apply NoDup_cons in Hnd as [Hv' Hnd].
  unfold str_eqb in Hdel. case_bool_decide as Hk.
  - injection Hdel as <-. split; [assumption|].
    intros x Hx. now apply list_elem_of_further.
  - destruct (dict_del k d) as [d1|]; [|discriminate].
    injection Hdel as <-. destruct (IH d1 eq_refl Hnd) as [Hnd1 Hsub].
    rewrite fmap_cons. split.
    + apply NoDup_cons. split; [|assumption]. intros Hx. apply Hv', Hsub, Hx.
    + intros x Hx. apply elem_of_cons in Hx as [->|Hx];
        [apply list_elem_of_here | apply list_elem_of_further, Hsub, Hx].
Qed.

(** A book made by [add_record] and [delete_record] holds each key once,
    under each key a record named as the key, and under no two keys the
    same record. *)
Lemma built_invariant s : built s -> keyed_by_name s /\ refs_distinct s.
Proof.
  induction 1 as [|s name phones birthday _ [[Hwf Hkeyed] Hdist]
                  |s name _ [[Hwf Hkeyed] Hdist]].
  - split; [split|].
    + apply NoDup_nil_2.
    + intros k r Hin. cbn in Hin. now apply not_elem_of_nil in Hin.
    + apply NoDup_nil_2.
  - rewrite add_record_eq.
    destruct (Rec.new name None birthday) as [record|e] eqn:Hnew;
      [|now repeat split].
    destruct (forallb str_isdigit (default [] phones)); [|now repeat split].
    cbn [snd]. unfold keyed_by_name, refs_distinct.
    cbn [data heap set_data set_heap].
    assert (Hfresh : forall r, r ∈ dict_values (data s) ->
                               (r < length (heap s))%nat).
    { intros r Hr. unfold dict_values in Hr.
      apply list_elem_of_fmap in Hr as ([k r'] & -> & Hin).
      destruct (Hkeyed k r' Hin) as (rec & Hrec & _).
      eapply lookup_lt_Some, Hrec. }
    split; [split|].
    + now apply dict_set_wf.
    + intros k r Hin. apply (dict_set_elem _ _ _ _ _ Hwf) in Hin
        as [[-> ->]|[Hne Hin]].
      * eexists. split.
        -- rewrite lookup_app_r by lia. now rewrite Nat.sub_diag.
        -- cbn. eapply Rec_new_name, Hnew.
      * destruct (Hkeyed k r Hin) as (rec & Hrec & Hname).
        exists rec. split; [|assumption].
        rewrite lookup_app_l; [assumption | eapply lookup_lt_Some, Hrec].
    + apply dict_set_values_NoDup; [assumption|].
      intros Hin. apply Hfresh in Hin. lia.
  - unfold delete_record.
    pose proof (dict_del_spec name (data s) Hwf) as Hdel.
    destruct (dict_del name (data s)) as [d'|] eqn:Hd; [|now repeat split].
    destruct Hdel as (_ & Hwf' & _ & _ & _ & Hsub).
    cbn [snd]. unfold keyed_by_name, refs_distinct.
    cbn [data heap set_data].
    split; [split|].
    + assumption.
    + intros k r Hin. apply Hkeyed, Hsub, Hin.
    + eapply dict_del_values_NoDup; eassumption.
Qed.

Lemma filter_name_is name s (d : list (str * ref)) :
  dict_wf d ->
  (forall k r, (k, r) ∈ d ->
     exists rec, heap s !! r = Some rec /\ Rec.name rec = Name.mk (VStr k)) ->
  List.filter (name_is name s) (dict_values d) =
  match dict_get name d with
  | Some r => [r]
  | None => []
  end.
Proof.
  unfold dict_wf, dict_keys, dict_values.
  induction d as [|[k r] d IH]; intros Hwf Hkeyed; [reflexivity|].
  rewrite fmap_cons in Hwf. apply NoDup_cons in Hwf as [Hfresh Hwf].
  rewrite fmap_cons. cbn [snd List.filter dict_get].
  destruct (Hkeyed k r (list_elem_of_here _ _)) as (rec & Hrec & Hname).
  assert (IH' := IH Hwf (fun k0 r0 H0 =>
                           Hkeyed k0 r0 (list_elem_of_further _ _ _ H0))).
  unfold name_is at 1. rewrite Hrec, Hname. cbn [Name.get_value Name._value].
  unfold value_eqb, str_eqb.
  destruct (decide (k = name)) as [->|Hne].
  - rewrite !bool_decide_eq_true_2 by reflexivity.
    rewrite IH'. now rewrite (proj2 (dict_get_None name d) Hfresh).
  - rewrite !bool_decide_eq_false_2 by congruence. exact IH'.
Qed.

(** In a book made by [add_record] and [delete_record] the search by name
    agrees with the dictionary: [find_records_by_name(name)] is the one
    record under the key [name], or empty when [name] is no key. *)
Theorem find_records_by_name_is_lookup (s : state) (name : str) :
  built s ->
  find_records_by_name name s =
  match dict_get name (data s) with
  | Some r => [r]
  | None => []
  end.
Proof.
  intros Hbuilt. destruct (built_invariant s Hbuilt) as [[Hwf Hkeyed] _].
  apply filter_name_is; assumption.
Qed.

Lemma book_of_five_built : built book_of_five.
Proof.
  unfold book_of_five. cbn [foldl]. repeat apply built_add. apply built_empty.
Qed.

Lemma find_records_by_name_is_lookup_witness :
  find_records_by_name (lit "Cy") book_of_five =
  match dict_get (lit "Cy") (data book_of_five) with
  | Some r => [r]
  | None => []
  end.
Proof.
  apply find_records_by_name_is_lookup, book_of_five_built.
Defined.




(** ** edit_record on a record that is there *)

(** For a record stored under [name] and new phones that are all valid,
    [edit_record] returns [None] and changes that record only: its name
    becomes [new_name] when one is given and not empty, its phones are
    replaced by the new ones when some are given; with neither, nothing
    changes. The birthday and the dictionary stay as they were. *)
Theorem edit_record_updates_record
  (s : state) (name : str) (new_name : option str)
  (new_phones : option (list str)) (r : ref) (rec : Rec.t) :
  dict_get name (data s) = Some r ->
  heap s !! r = Some rec ->
  Forall (fun p => Phone.validate_phone (VStr p) = true)
    (default [] new_phones) ->
  edit_record name new_name new_phones s =
  (Returned VNone,
   with_record r
     (Rec.mk
        (if truthy new_name then Name.mk (VStr (default [] new_name))
         else Rec.name rec)
        (if truthy new_phones then phone_of <$> default [] new_phones
         else Rec.phones rec)
        (Rec.birthday rec)) s)
  /\ (truthy new_name = false -> truthy new_phones = false ->
      edit_record name new_name new_phones s = (Returned VNone, s)).
Proof.
  intros Hkey Hrec Hvalid.
  assert (Hall : forallb str_isdigit (default [] new_phones) = true).
  { apply forallb_forall. intros p Hp.
    rewrite Forall_forall in Hvalid. apply Hvalid, list_elem_of_In, Hp. }
  set (rec1 := if truthy new_name
               then Rec.set_name (Name.mk (VStr (default [] new_name))) rec
               else rec).
  assert (H1 : (if truthy new_name
                then on_record r
                       (Rec.on_name
                          (Name.set_value (VStr (default [] new_name))))
                else ret tt) s = (Returned tt, with_record r rec1 s)).
  { subst rec1. destruct (truthy new_name).
    - rewrite (on_record_eq _ _ _ _ Hrec). reflexivity.
    - unfold ret. now rewrite with_record_id. }
  assert (Hmain : edit_record name new_name new_phones s =
    (Returned VNone,
     with_record r
       (Rec.mk
          (if truthy new_name then Name.mk (VStr (default [] new_name))
           else Rec.name rec)
          (if truthy new_phones then phone_of <$> default [] new_phones
           else Rec.phones rec)
          (Rec.birthday rec)) s)).
  { rewrite (edit_record_found _ _ _ _ _ Hkey). unfold bind at 1.
    rewrite H1. unfold bind at 1.
    assert (Hrec1 := with_record_lookup r rec1 rec s Hrec).
    destruct (truthy new_phones).
    - unfold bind at 1. rewrite (on_record_eq _ _ _ _ Hrec1).
      cbn [fst snd modify]. rewrite with_record_twice.
      assert (Hrec1' := with_record_lookup r (Rec.set_phones [] rec1) rec s Hrec).
      rewrite (add_phones_on_record _ _ _ _ Hrec1'), Hall.
      rewrite with_record_twice, (valid_prefix_all _ Hall).
      unfold ret. do 2 f_equal. subst rec1.
      destruct (truthy new_name); now destruct rec.
    - unfold ret. do 2 f_equal. subst rec1.
      destruct (truthy new_name); now destruct rec. }
  split; [exact Hmain|].
  intros Hn Hp. rewrite Hmain, Hn, Hp.
  f_equal. rewrite <- (with_record_id r rec s Hrec) at 2.
  f_equal. now destruct rec.
Qed.

Lemma edit_record_updates_record_witness :
  edit_record (lit "Ann") (Some (lit "Anna")) (Some [lit "5"; lit "6"])
    (add_record (lit "Ann") (Some [lit "12345"]) None (empty [])).2 =
  (Returned VNone,
   with_record 0%nat
     (Rec.mk (Name.mk (VStr (lit "Anna")))
        [phone_of (lit "5"); phone_of (lit "6")] None)
     (add_record (lit "Ann") (Some [lit "12345"]) None (empty [])).2).
Proof.
  apply (edit_record_updates_record
           (add_record (lit "Ann") (Some [lit "12345"]) None (empty [])).2
           (lit "Ann") (Some (lit "Anna")) (Some [lit "5"; lit "6"]) 0%nat
           (Rec.mk (Name.mk (VStr (lit "Ann"))) [phone_of (lit "12345")] None)).
  - vm_compute. reflexivity.
  - vm_compute. reflexivity.
  - apply Forall_forallb_true. vm_compute. reflexivity.
Defined.

(** ** Generators over a changing book *)

Lemma set_index_set_index i j s : set_index i (set_index j s) = set_index i s.
Proof. reflexivity. Qed.




Lemma next_suspended g s :
  pc g = GenSuspended -> _keys s = dict_keys (data s) -> dict_wf (data s) ->
  forall r, dict_values (data s) !! S (_index s) = Some r ->
  next g s = (Returned r, mk_generator (page_size g) GenSuspended,
              set_index (S (_index s)) s).
Proof.
  intros Hpc Hkeys Hwf r Hr. unfold next. rewrite Hpc.
  rewrite iterator_loop_eq by assumption.
  cbn [data _index set_index].
  unfold dict_values in Hr. rewrite list_lookup_fmap in Hr.
  destruct (data s !! S (_index s)) as [[k v]|]; [|discriminate].
  now injection Hr as ->.
Qed.

(** The position of a traversal is the book's, not the generator's: each
    [next], on whichever of several suspended generators of a book, yields
    the record after the one yielded last by any of them. A generator so
    misses the records the others were given. *)
Theorem generators_share_position (gs : list generator) : forall s : state,
  Forall (fun g => pc g = GenSuspended) gs ->
  _keys s = dict_keys (data s) -> dict_wf (data s) ->
  (_index s + length gs < length (data s))%nat ->
  (advance gs s).1 =
    Returned <$> take (length gs) (drop (S (_index s)) (dict_values (data s)))
  /\ (advance gs s).2 = set_index (_index s + length gs) s.
Proof.
  induction gs as [|g gs IH]; intros s Hall Hkeys Hwf Hlen.
  - cbn. now rewrite Nat.add_0_r, set_index_same.
  - apply Forall_cons in Hall as [Hg Hall]. cbn [length] in Hlen.
    destruct (lookup_lt_is_Some_2 (dict_values (data s)) (S (_index s)))
      as [r Hr].
    { unfold dict_values. rewrite length_fmap. lia. }
    cbn [advance]. rewrite (next_suspended g s Hg Hkeys Hwf r Hr).
    specialize (IH (set_index (S (_index s)) s) Hall Hkeys Hwf).
    cbn [data _keys _index set_index] in IH.
    destruct (advance gs (set_index (S (_index s)) s)) as [os s''].
    destruct IH as [IH1 IH2]; [lia|]. cbn [fst snd] in *.
    split.
    + rewrite IH1. cbn [length].
      rewrite (drop_S _ _ _ Hr). reflexivity.
    + rewrite IH2, set_index_set_index, Nat.add_succ_comm. reflexivity.
Qed.

Lemma generators_share_position_witness :
  (advance [mk_generator 2 GenSuspended; mk_generator 3 GenSuspended;
            mk_generator 2 GenSuspended]
     (next (iterator 3) (next (iterator 2) book_of_five).2).2).1 =
  [Returned 1%nat; Returned 2%nat; Returned 3%nat].
Proof.
  apply (generators_share_position
           [mk_generator 2 GenSuspended; mk_generator 3 GenSuspended;
            mk_generator 2 GenSuspended]
           (next (iterator 3) (next (iterator 2) book_of_five).2).2).
  - repeat constructor.
  - vm_compute. reflexivity.
  - apply (bool_decide_unpack _). vm_compute. exact I.
  - vm_compute. lia.
Defined.

(** ** The iterator protocol *)

Lemma next_until_stop_enough k : forall s acc fuel,
  _keys s = dict_keys (data s) -> dict_wf (data s) ->
  (_index s + k = length (data s))%nat -> (k < fuel)%nat ->
  next_until_stop fuel s acc =
  Some (Returned (acc ++ drop (_index s) (dict_values (data s))),
        set_index (length (data s)) s).
Proof.
  induction k as [|k IH]; intros s acc fuel Hkeys Hwf Hlen Hfuel;
    (destruct fuel as [|fuel]; [lia|]);
    cbn [next_until_stop]; unfold __next__;
    rewrite Hkeys; unfold dict_keys; rewrite list_lookup_fmap.
  - rewrite Nat.add_0_r in Hlen.
    rewrite lookup_ge_None_2 by lia. cbn.
    rewrite drop_ge by (unfold dict_values; rewrite length_fmap; lia).
    now rewrite app_nil_r, <- Hlen, set_index_same.
  - destruct (lookup_lt_is_Some_2 (data s) (_index s)) as [[key v] Hi];
      [lia|].
    rewrite Hi. cbn [fmap option_fmap option_map fst].
    rewrite (dict_get_lookup _ _ _ _ Hwf Hi).
    rewrite IH; cbn [data _keys _index set_index];
      try assumption; try lia.
    assert (Hv : dict_values (data s) !! _index s = Some v).
    { unfold dict_values. now rewrite list_lookup_fmap, Hi. }
    now rewrite (drop_S _ _ _ Hv), <- app_assoc.
Qed.

(** A [for] loop over the book itself, through [__iter__] and [__next__],
    visits the records of the dictionary in its order, each once, and stops
    after one more call; the dictionary and the records are untouched, and
    one call fewer does not reach the end. *)
Theorem for_in_visits_records_in_order (s : state) :
  dict_wf (data s) ->
  (forall fuel, (length (data s) < fuel)%nat ->
     for_in fuel s =
     Some (Returned (dict_values (data s)),
           set_index (length (data s)) (set_keys (dict_keys (data s)) s)))
  /\ for_in (length (data s)) s = None.
Proof.
  intros Hwf. split.
  - intros fuel Hfuel. unfold for_in, __iter__, modify. cbn [snd].
    rewrite (next_until_stop_enough (length (data s)));
      cbn [data _keys _index set_index set_keys];
      try assumption; try reflexivity; lia.
  - unfold for_in, __iter__, modify. cbn [snd].
    enough (Hshort : forall k (s0 : state) acc fuel,
      _keys s0 = dict_keys (data s0) -> dict_wf (data s0) ->
      (_index s0 + k = length (data s0))%nat -> (fuel <= k)%nat ->
      next_until_stop fuel s0 acc = None).
    { apply (Hshort (length (data s)));
        cbn [data _keys _index set_index set_keys];
        try assumption; try reflexivity; lia. }
    clear. induction k as [|k IH]; intros s0 acc fuel Hkeys Hwf Hlen Hfuel;
      (destruct fuel as [|fuel]; [reflexivity|]); [lia|].
    cbn [next_until_stop]. unfold __next__.
    rewrite Hkeys. unfold dict_keys. rewrite list_lookup_fmap.
    destruct (lookup_lt_is_Some_2 (data s0) (_index s0)) as [[key v] Hi];
      [lia|].
    rewrite Hi. cbn [fmap option_fmap option_map fst].
    rewrite (dict_get_lookup _ _ _ _ Hwf Hi).
    apply IH; cbn [data _keys _index set_index]; try assumption; lia.
Qed.

Lemma for_in_visits_records_in_order_witness :
  for_in 6 book_of_five =
  Some (Returned [0; 1; 2; 3; 4]%nat,
        set_index 5 (set_keys (dict_keys (data book_of_five)) book_of_five)).
Proof.
  destruct (for_in_visits_records_in_order book_of_five book_of_five_wf)
    as [H _].
  apply (H 6%nat). vm_compute. lia.
Defined.

(** ** Loading replaces the book *)



(** A file that does not unpickle leaves the book as it was. *)
Lemma load_from_file_corrupt {blob : Type}
  (pickle_loads : blob -> option image)
  (s : state) (filename : str) (fs : gmap str blob) (bytes : blob) :
  fs !! filename = Some bytes -> pickle_loads bytes = None ->
  load_from_file pickle_loads filename fs s = (Raised UnpicklingError, s).
Proof.
  intros Hfile Hbad. unfold load_from_file. now rewrite Hfile, Hbad.
Qed.

(** ** Record(...) *)

(** [Record(name, phone, birthday)], for a birthday [Birthday] takes or
    none: with no phone or an empty one the record has no phone; with a
    valid phone it has that one phone; with any other phone string the
    constructor raises [ValueError]. *)
Theorem Record_new_fields (name : str) (phone : option str)
  (birthday : option date) :
  match birthday with
  | Some d => date_ok d = true /\ 1000 <= year d
  | None => True
  end ->
  Rec.new name phone birthday =
  if truthy phone then
    if str_isdigit (default [] phone)
    then Returned (Rec.mk (Name.mk (VStr name)) [phone_of (default [] phone)]
                     ((fun d => Birthday.mk (VDate d)) <$> birthday))
    else Raised (ValueError (lit "Invalid phone number"))
  else Returned (Rec.mk (Name.mk (VStr name)) []
                   ((fun d => Birthday.mk (VDate d)) <$> birthday)).
Proof.
  intros Hbirthday. unfold Rec.new.
  assert (Hb : match birthday with
               | Some d =>
                 obind (Birthday.new (VDate d)) (fun b => Returned (Some b))
               | None => Returned None
               end = Returned ((fun d => Birthday.mk (VDate d)) <$> birthday)).
  { destruct birthday as [d|]; [|reflexivity].
    destruct Hbirthday as [Hok Hy]. unfold Birthday.new.
    rewrite Birthday_set_value_eq. cbn [Birthday.validate_birthday].
    now rewrite (strptime_strftime d Hok Hy). }
  rewrite Hb. cbn [obind].
  destruct phone as [[|c p]|]; cbn [truthy default from_option id];
    try reflexivity.
  rewrite add_phone_str. now destruct (str_isdigit (c :: p)).
Qed.

Lemma Record_new_fields_witness :
  Rec.new (lit "Ann") (Some (lit "12345")) (Some (mk_date 1990 5 1)) =
  Returned (Rec.mk (Name.mk (VStr (lit "Ann"))) [phone_of (lit "12345")]
              (Some (Birthday.mk (VDate (mk_date 1990 5 1))))).
Proof.
  apply (Record_new_fields (lit "Ann") (Some (lit "12345"))
           (Some (mk_date 1990 5 1))).
  split; [reflexivity | cbn; lia].
Defined.

(** ** days_to_birthday stays within a year *)

Lemma date_ltb_same_year y m1 d1 m2 d2 :
  date_ltb (mk_date y m1 d1) (mk_date y m2 d2) =
  (m1 <? m2) || ((m1 =? m2) && (d1 <? d2)).
Proof.
  unfold date_ltb. cbn [year month day].
  now rewrite Z.ltb_irrefl, Z.eqb_refl.
Qed.

Lemma date_ltb_true_same_year y m1 d1 m2 d2 :
  date_ltb (mk_date y m1 d1) (mk_date y m2 d2) = true <->
  m1 < m2 \/ (m1 = m2 /\ d1 < d2).
Proof.
  rewrite date_ltb_same_year, orb_true_iff, andb_true_iff.
  now rewrite !Z.ltb_lt, Z.eqb_eq.
Qed.

(** Within a year, different dates have different ordinals, less than a
    year apart. *)
Lemma toordinal_same_year_strict y m1 d1 m2 d2 :
  date_ok (mk_date y m1 d1) = true -> date_ok (mk_date y m2 d2) = true ->
  date_ltb (mk_date y m1 d1) (mk_date y m2 d2) = false ->
  toordinal (mk_date y m1 d1) - toordinal (mk_date y m2 d2) <= 365
  /\ (toordinal (mk_date y m1 d1) = toordinal (mk_date y m2 d2) ->
      m1 = m2 /\ d1 = d2).
Proof.
  intros H1 H2 Hlt. apply date_ok_fields in H1, H2.
  cbn [year month day] in *.
  destruct H1 as (_ & Hm1 & Hd1), H2 as (_ & Hm2 & Hd2).
  assert (Hge : ~ (m1 < m2 \/ (m1 = m2 /\ d1 < d2))).
  { rewrite <- date_ltb_true_same_year, Hlt. discriminate. }
  unfold toordinal. cbn [year month day].
  unfold days_before_month, days_in_month in *.
  each_month Hm1; each_month Hm2; try lia;
    destruct (is_leap y); cbn in *; lia.
Qed.

(** From a date to a month and day of the next year that this year are
    already past, there is at most a year. *)
Lemma toordinal_next_year_bound y m1 d1 m2 d2 :
  date_ok (mk_date (y + 1) m1 d1) = true -> date_ok (mk_date y m2 d2) = true ->
  date_ltb (mk_date y m1 d1) (mk_date y m2 d2) = true ->
  ~ (m1 = 2 /\ d1 = 29) ->
  toordinal (mk_date (y + 1) m1 d1) - toordinal (mk_date y m2 d2) <= 365.
Proof.
  intros H1 H2 Hlt Hnot. apply date_ok_fields in H1, H2.
  cbn [year month day] in *.
  destruct H1 as (_ & Hm1 & Hd1), H2 as (_ & Hm2 & Hd2).
  apply date_ltb_true_same_year in Hlt.
  unfold toordinal. cbn [year month day]. rewrite days_before_year_succ.
  pose proof (is_leap_succ y) as Hsucc.
  unfold days_before_month, days_in_month in *.
  each_month Hm1; each_month Hm2; try lia;
    destruct (is_leap y), (is_leap (y + 1));
    try (specialize (Hsucc eq_refl); discriminate);
    cbn in *; lia.
Qed.

(** For a birthday other than a 29th of February, and before the last year
    of the calendar, [days_to_birthday] returns a number of days between 0
    and 365, and 0 exactly on the day whose month and day are the
    birthday's. *)
Theorem days_to_birthday_within_a_year (today b : date) (rec : Rec.t) :
  Rec.birthday rec = Some (Birthday.mk (VDate b)) ->
  date_ok today = true -> date_ok b = true ->
  ~ (month b = 2 /\ day b = 29) ->
  year today < MAXYEAR ->
  exists n,
    Rec.days_to_birthday today rec = Returned (Some n)
    /\ 0 <= n <= 365
    /\ (n = 0 <-> month today = month b /\ day today = day b).
Proof.
  intros Hb Htoday Hbok Hnot Hlast.
  pose proof (date_ok_year _ Htoday) as Hy.
  assert (Hthis : date_ok (mk_date (year today) (month b) (day b)) = true).
  { apply date_ok_other_year; assumption. }
  assert (Hnext : date_ok (mk_date (year today + 1) (month b) (day b)) = true).
  { apply date_ok_other_year; try assumption.
    unfold MINYEAR, MAXYEAR in *. lia. }
  unfold Rec.days_to_birthday. rewrite Hb.
  cbn [Birthday.get_month Birthday.get_day Birthday._value obind].
  rewrite (date_new_ok _ _ _ Hthis). cbn [obind].
  destruct today as [y m d]. cbn [year month day] in *.
  destruct (date_ltb (mk_date y (month b) (day b)) (mk_date y m d)) eqn:Hlt.
  - unfold date_replace_year. cbn [month day].
    rewrite (date_new_ok _ _ _ Hnext). cbn [obind].
    eexists. split; [reflexivity|]. unfold date_sub_days.
    pose proof (toordinal_next_year y (month b) (day b) m d Hnext Htoday).
    pose proof (toordinal_next_year_bound y (month b) (day b) m d
                  Hnext Htoday Hlt Hnot).
    apply date_ltb_true_same_year in Hlt.
    split; [lia|]. split; [lia | intros [-> ->]; lia].
  - cbn [obind]. eexists. split; [reflexivity|]. unfold date_sub_days.
    pose proof (toordinal_same_year y (month b) (day b) m d Hthis Htoday Hlt).
    destruct (toordinal_same_year_strict y (month b) (day b) m d
                Hthis Htoday Hlt) as [Hle Heq].
    split; [lia|]. split.
    + intros Hz. destruct Heq as [-> ->]; [lia | auto].
    + intros [-> ->]. lia.
Qed.

Lemma days_to_birthday_within_a_year_witness :
  exists n,
    Rec.days_to_birthday (mk_date 2024 1 2)
      (Rec.mk (Name.mk (VStr (lit "Ann"))) []
         (Some (Birthday.mk (VDate (mk_date 1990 1 1))))) = Returned (Some n)
    /\ 0 <= n <= 365
    /\ (n = 0 <-> 1 = 1 /\ 2 = 1).
Proof.
  apply (days_to_birthday_within_a_year (mk_date 2024 1 2) (mk_date 1990 1 1));
    try reflexivity.
  intros [H _]. discriminate H.
Defined.

(** In the last year of the calendar a birthday already past makes
    [days_to_birthday] raise [ValueError]: there is no next year. *)
Theorem days_to_birthday_last_year (today b : date) (rec : Rec.t) :
  Rec.birthday rec = Some (Birthday.mk (VDate b)) ->
  date_ok today = true -> date_ok b = true ->
  ~ (month b = 2 /\ day b = 29) ->
  year today = MAXYEAR ->
  date_ltb (mk_date MAXYEAR (month b) (day b)) today = true ->
  Rec.days_to_birthday today rec =
  Raised (ValueError (lit "year 10000 is out of range")).
Proof.
  intros Hb Htoday Hbok Hnot Hy Hlt.
  assert (Hthis : date_ok (mk_date MAXYEAR (month b) (day b)) = true).
  { apply date_ok_other_year; try assumption. unfold MINYEAR, MAXYEAR. lia. }
  unfold Rec.days_to_birthday. rewrite Hb.
  cbn [Birthday.get_month Birthday.get_day Birthday._value obind].
  rewrite Hy, (date_new_ok _ _ _ Hthis). cbn [obind]. rewrite Hlt.
  unfold date_replace_year, date_new. cbn [month day]. reflexivity.
Qed.

Lemma days_to_birthday_last_year_witness :
  Rec.days_to_birthday (mk_date 9999 6 1)
    (Rec.mk (Name.mk (VStr (lit "Ann"))) []
       (Some (Birthday.mk (VDate (mk_date 1990 5 1))))) =
  Raised (ValueError (lit "year 10000 is out of range")).
Proof.
  apply (days_to_birthday_last_year (mk_date 9999 6 1) (mk_date 1990 5 1));
    try reflexivity.
  intros [H _]. discriminate H.
Defined.

(** ** How the operations of the book compose *)

Lemma dict_set_fresh {V} k (v : V) d :
  k ∉ dict_keys d -> dict_set k v d = d ++ [(k, v)].
Proof.
  unfold dict_keys. induction d as [|[k' v'] d IH]; [reflexivity|].
  rewrite fmap_cons. intros H. apply not_elem_of_cons in H as [Hne H].
  cbn [dict_set fst]. unfold str_eqb.
  rewrite bool_decide_eq_false_2 by (cbn in Hne; congruence).
  now rewrite IH.
Qed.

Lemma dict_del_appended {V} k (v : V) d :
  k ∉ dict_keys d -> dict_del k (d ++ [(k, v)]) = Some d.
Proof.
  unfold dict_keys. induction d as [|[k' v'] d IH]; intros H.
  - cbn. unfold str_eqb. now rewrite bool_decide_eq_true_2.
  - rewrite fmap_cons in H. apply not_elem_of_cons in H as [Hne H].
    cbn [app dict_del]. unfold str_eqb.
    rewrite bool_decide_eq_false_2 by (cbn in Hne; congruence).
    now rewrite IH.
Qed.

(** Adding a contact under a name that is no key yet and deleting it again
    gives back the dictionary as it was, key for key and in the same order,
    and leaves the records made before untouched. *)
Theorem delete_record_undoes_add_record
  (s : state) (name : str) (phones : option (list str))
  (birthday : option date) :
  name ∉ dict_keys (data s) ->
  Forall (fun p => Phone.validate_phone (VStr p) = true) (default [] phones) ->
  match birthday with
  | Some d => date_ok d = true /\ 1000 <= year d
  | None => True
  end ->
  exists s1 s2,
    add_record name phones birthday s = (Returned tt, s1)
    /\ delete_record name s1 = (Returned tt, s2)
    /\ data s2 = data s
    /\ forall r, (r < length (heap s))%nat -> heap s2 !! r = heap s !! r.
Proof.
  intros Hfresh Hphones Hbirthday.
  assert (Hall : forallb str_isdigit (default [] phones) = true).
  { apply forallb_forall. intros p Hp.
    rewrite Forall_forall in Hphones. apply Hphones, list_elem_of_In, Hp. }
  assert (Hnew : exists record, Rec.new name None birthday = Returned record).
  { rewrite Rec_new_no_phone. destruct birthday as [d|]; [|eauto].
    destruct Hbirthday as [Hok Hy].
    rewrite (strptime_strftime d Hok Hy). eauto. }
  destruct Hnew as [record Hnew].
  rewrite add_record_eq, Hnew, Hall.
  eexists. eexists. split; [reflexivity|].
  unfold delete_record. cbn [data heap set_data set_heap].
  rewrite (dict_set_fresh _ _ _ Hfresh), (dict_del_appended _ _ _ Hfresh).
  split; [reflexivity|]. cbn [data heap set_data set_heap].
  split; [reflexivity|]. intros r Hr. now rewrite lookup_app_l.
Qed.

Lemma delete_record_undoes_add_record_witness :
  exists s1 s2,
    add_record (lit "Flo") (Some [lit "777"]) (Some (mk_date 2001 9 9))
      book_of_five = (Returned tt, s1)
    /\ delete_record (lit "Flo") s1 = (Returned tt, s2)
    /\ data s2 = data book_of_five
    /\ forall r, (r < length (heap book_of_five))%nat ->
                 heap s2 !! r = heap book_of_five !! r.
Proof.
  apply (delete_record_undoes_add_record book_of_five (lit "Flo")
           (Some [lit "777"]) (Some (mk_date 2001 9 9))).
  - apply dict_get_None. vm_compute. reflexivity.
  - apply Forall_forallb_true. vm_compute. reflexivity.
  - split; [reflexivity | cbn; lia].
Defined.

Lemma one_key_per_ref {V} (d : list (str * V)) k1 k2 v :
  NoDup (dict_values d) -> (k1, v) ∈ d -> (k2, v) ∈ d -> k1 = k2.
Proof.
  unfold dict_values. induction d as [|[k' v'] d IH]; intros Hnd H1 H2.
  - now apply not_elem_of_nil in H1.
  - rewrite fmap_cons in Hnd. apply NoDup_cons in Hnd as [Hv Hnd].
    cbn [snd] in Hv.
    assert (Hin : forall k, (k, v') ∈ d -> False).
    { intros k Hk. apply Hv, list_elem_of_fmap. exists (k, v'). auto. }
    apply elem_of_cons in H1 as [H1|H1]; apply elem_of_cons in H2 as [H2|H2].
    + congruence.
    + injection H1 as -> ->. now apply Hin in H2.
    + injection H2 as -> ->. now apply Hin in H1.
    + now apply IH.
Qed.

Lemma edit_record_rename_eq s name c new_name r rec :
  dict_get name (data s) = Some r -> heap s !! r = Some rec ->
  edit_record name (Some (c :: new_name)) None s =
  (Returned VNone,
   with_record r (Rec.set_name (Name.mk (VStr (c :: new_name))) rec) s).
Proof.
  intros Hkey Hrec. rewrite (edit_record_found _ _ _ _ _ Hkey).
  cbn [truthy default from_option id]. unfold bind.
  now rewrite (on_record_eq _ _ _ _ Hrec).
Qed.

Lemma filter_renamed name new_name h (d : list (str * ref)) :
  dict_wf d -> new_name ∉ dict_keys d ->
  (forall k r, (k, r) ∈ d ->
     exists rec, h !! r = Some rec
                 /\ Rec.name rec =
                    Name.mk (VStr (if decide (k = name) then new_name else k))) ->
  forall s, heap s = h ->
  List.filter (name_is new_name s) (dict_values d) =
  match dict_get name d with
  | Some r => [r]
  | None => []
  end.
Proof.
  unfold dict_wf, dict_keys, dict_values.
  induction d as [|[k r] d IH]; intros Hwf Hnew Hnames s Hs; [reflexivity|].
  rewrite fmap_cons in Hwf, Hnew. apply NoDup_cons in Hwf as [Hfresh Hwf].
  apply not_elem_of_cons in Hnew as [Hne Hnew]. cbn [fst] in Hne, Hfresh.
  rewrite fmap_cons. cbn [snd List.filter dict_get].
  destruct (Hnames k r (list_elem_of_here _ _)) as (rec & Hrec & Hname).
  assert (IH' := IH Hwf Hnew
                   (fun k0 r0 H0 =>
                      Hnames k0 r0 (list_elem_of_further _ _ _ H0)) s Hs).
  unfold name_is at 1. rewrite Hs, Hrec, Hname.
  cbn [Name.get_value Name._value]. unfold value_eqb, str_eqb.
  destruct (decide (k = name)) as [->|Hk].
  - rewrite !bool_decide_eq_true_2 by reflexivity.
    rewrite IH'. now rewrite (proj2 (dict_get_None name d) Hfresh).
  - rewrite !bool_decide_eq_false_2 by congruence. exact IH'.
Qed.

(** Names stop being unique once a record is renamed: in a book made by
    [add_record] and [delete_record], renaming the record under [name] to a
    new name that is no key, then adding a contact of that new name, leaves
    two records with that name. [find_records_by_name] returns both, the
    renamed one first; the dictionary still has the renamed record under
    its old key. *)
Theorem rename_then_add_gives_two_records
  (s : state) (name new_name : str) (r : ref) :
  built s ->
  dict_get name (data s) = Some r ->
  new_name <> [] ->
  new_name ∉ dict_keys (data s) ->
  let s1 := (edit_record name (Some new_name) None s).2 in
  let s2 := (add_record new_name None None s1).2 in
  find_records_by_name new_name s2 = [r; length (heap s)]
  /\ dict_get name (data s2) = Some r
  /\ dict_get new_name (data s2) = Some (length (heap s)).
Proof.
  intros Hbuilt Hkey Hne Hfresh. cbv zeta.
  destruct (built_invariant s Hbuilt) as [[Hwf Hkeyed] Hdist].
  unfold refs_distinct in Hdist.
  pose proof (dict_get_Some_elem _ _ _ Hkey) as Hin.
  destruct (Hkeyed name r Hin) as (rec & Hrec & Hname).
  destruct new_name as [|c new_name]; [congruence|].
  rewrite (edit_record_rename_eq _ _ _ _ _ _ Hkey Hrec). cbn [snd].
  set (rec' := Rec.set_name (Name.mk (VStr (c :: new_name))) rec).
  rewrite add_record_eq, Rec_new_no_phone.
  cbn [default from_option forallb snd].
  unfold with_record. cbn [data heap set_data set_heap].
  rewrite length_insert.
  rewrite (dict_set_fresh _ _ _ Hfresh).
  set (h2 := <[r := rec']> (heap s) ++ _).
  assert (Hlen : (r < length (heap s))%nat) by (eapply lookup_lt_Some, Hrec).
  assert (Hnames : forall k rk, (k, rk) ∈ data s ->
            exists rec0, h2 !! rk = Some rec0
              /\ Rec.name rec0 =
                 Name.mk (VStr (if decide (k = name) then c :: new_name else k))).
  { intros k rk Hk. destruct (decide (k = name)) as [->|Hkn].
    - assert (rk = r) as ->.
      { apply (dict_get_elem _ _ _ Hwf) in Hk. congruence. }
      exists rec'. split; [|reflexivity]. subst h2.
      rewrite lookup_app_l by (rewrite length_insert; lia).
      now apply list_lookup_insert_eq.
    - destruct (Hkeyed k rk Hk) as (rec0 & Hrec0 & Hname0).
      exists rec0. split; [|assumption]. subst h2.
      rewrite lookup_app_l
        by (rewrite length_insert; eapply lookup_lt_Some, Hrec0).
      rewrite list_lookup_insert_ne; [assumption|].
      intros <-. apply Hkn. eapply one_key_per_ref; eassumption. }
  split; [|split].
  - unfold find_records_by_name, dict_values. cbn [data set_data].
    rewrite fmap_app, List.filter_app.
    change (List.filter ?f ((data s).*2)) with
      (List.filter f (dict_values (data s))).
    rewrite (filter_renamed name (c :: new_name) h2 (data s) Hwf Hfresh Hnames)
      by reflexivity.
    rewrite Hkey. cbn [fmap list_fmap snd List.filter app].
    unfold name_is. cbn [heap set_data set_heap]. subst h2.
    rewrite lookup_app_r by (rewrite length_insert; lia).
    rewrite length_insert, Nat.sub_diag. cbn.
    unfold value_eqb. now rewrite bool_decide_eq_true_2.
  - cbn [data set_data].
    rewrite <- (dict_set_fresh (V := ref) _ (length (heap s)) _ Hfresh).
    rewrite dict_get_set_ne; [assumption|].
    intros ->. apply Hfresh. eapply elem_key, Hin.
  - cbn [data set_data].
    rewrite <- (dict_set_fresh (V := ref) _ (length (heap s)) _ Hfresh).
    apply dict_get_set_eq.
Qed.

Lemma rename_then_add_gives_two_records_witness :
  find_records_by_name (lit "Bobby")
    (add_record (lit "Bobby") None None
       (edit_record (lit "Bob") (Some (lit "Bobby")) None book_of_five).2).2 =
  [1%nat; 5%nat].
Proof.
  apply (rename_then_add_gives_two_records book_of_five (lit "Bob")
           (lit "Bobby") 1%nat book_of_five_built).
  - vm_compute. reflexivity.
  - discriminate.
  - apply dict_get_None. vm_compute. reflexivity.
Defined.
